(** * Intrusion-detection dashboard: the data pipeline of [app.py]

    A shallow embedding of the table operations that [app.py] wires together
    (missing-value handling, chunk normalisation, label encoding, evaluation
    metrics, anomaly flagging, the remote advisory call) and the properties
    the specification states about them.

    Modelling conventions.
    - A pandas table is a [frame]: an index length and an ordered list of
      named, typed columns.  A column is looked up by the first entry bearing
      its name.
    - Numbers are exact rationals extended with the two infinities and the
      missing marker NaN ([fval]); of binary64 arithmetic the overflow of a
      sum is modelled, its rounding is not.
    - Text is the sequence of its UTF-8 bytes.
    - Streamlit output is a log of [ui_event]s threaded through a writer
      monad; Python exceptions are values of [exn] in a result type.
    - A table that is mutated through a reference lives on a heap, a finite
      map from references to tables. *)

From Stdlib Require Import ZArith QArith List String Ascii Bool Lia Lqa Sorted.
From stdpp Require Import base option list gmap strings.
Import ListNotations.

Local Open Scope string_scope.
Local Open Scope list_scope.

(* ===================================================================== *)
(** ** Values and columns *)
(* ===================================================================== *)

(** A float64 cell: a finite number, one of the infinities, or NaN (the
    missing marker of numeric columns). *)
Inductive fval : Type :=
| Fin (q : Q)
| PosInf
| NegInf
| NaN.

(** Storage width of a floating column. *)
Inductive fwidth : Type := W32 | W64.

(** A typed column.  Text cells are [Some s]; [None] is the missing marker
    of object and category columns. *)
Inductive column : Type :=
| IntCol (xs : list Z)
| FloatCol (w : fwidth) (xs : list fval)
| ObjCol (xs : list (option string))
| CatCol (xs : list (option string)).

Record frame : Type := mkFrame {
  nrows : nat;
  columns : list (string * column)
}.

Definition col_length (c : column) : nat :=
  match c with
  | IntCol xs => length xs
  | FloatCol _ xs => length xs
  | ObjCol xs => length xs
  | CatCol xs => length xs
  end.

(** [data.columns] *)
Definition colnames (data : frame) : list string := map fst (columns data).

(** [name in data.columns] *)
Definition has_column (name : string) (data : frame) : bool :=
  existsb (String.eqb name) (colnames data).

Fixpoint assoc_col (name : string) (cs : list (string * column)) : option column :=
  match cs with
  | [] => None
  | (n, c) :: rest => if String.eqb name n then Some c else assoc_col name rest
  end.

(** [data[name]] *)
Definition getcol (name : string) (data : frame) : option column :=
  assoc_col name (columns data).

(** Apply [f] to the first column called [name]. *)
Fixpoint update_assoc (f : column -> column) (name : string)
    (cs : list (string * column)) : list (string * column) :=
  match cs with
  | [] => []
  | (n, c) :: rest =>
      if String.eqb name n then (n, f c) :: rest
      else (n, c) :: update_assoc f name rest
  end.

Definition update_col (f : column -> column) (name : string) (data : frame) : frame :=
  mkFrame (nrows data) (update_assoc f name (columns data)).

(* ===================================================================== *)
(** ** The Streamlit log *)
(* ===================================================================== *)

(** One entry per call that shows something.  [StWriteAccuracy a] is
    [st.write(f"Accuracy: {a:.4f}")], the number as handed to the four-decimal
    formatter; [StTextReport y p] is [st.text(classification_report(y, p))];
    [PrintValueCounts msg codes] is [print(msg, codes.value_counts())] on
    standard output. *)
Inductive ui_event : Type :=
| StError (msg : string)
| StSuccess (msg : string)
| StSubheader (msg : string)
| StWrite (msg : string)
| StTitle (msg : string)
| StImage (path : string) (width : nat)
| StWriteAccuracy (accuracy : fval)
| StTextReport (y_true y_pred : list Z)
| StWriteMatrix (cm : list (list nat))
| StDataframe (view : frame)
| PrintValueCounts (msg : string) (codes : list Z).

(** A computation that appends to the log. *)
Definition ui (A : Type) : Type := (A * list ui_event)%type.

Definition ui_ret {A} (a : A) : ui A := (a, []).

Definition ui_bind {A B} (m : ui A) (k : A -> ui B) : ui B :=
  let '(a, l1) := m in
  let '(b, l2) := k a in
  (b, l1 ++ l2).

Definition emit (e : ui_event) : ui unit := (tt, [e]).

Declare Scope ui_scope.
Delimit Scope ui_scope with ui.
Notation "x <- m ;; k" := (ui_bind m (fun x => k))
  (at level 100, m at next level, right associativity) : ui_scope.
Notation "m ;;; k" := (ui_bind m (fun _ => k))
  (at level 100, right associativity) : ui_scope.

(* ===================================================================== *)
(** ** [handle_missing_values] *)
(* ===================================================================== *)

(** [isna] on the cells of a column, as a row mask of present cells.
    Infinities are not missing. *)
Definition fval_notna (v : fval) : bool :=
  match v with NaN => false | _ => true end.

Definition present_mask (c : column) : list bool :=
  match c with
  | IntCol xs => map (fun _ => true) xs
  | FloatCol _ xs => map fval_notna xs
  | ObjCol xs => map (fun o => match o with Some _ => true | None => false end) xs
  | CatCol xs => map (fun o => match o with Some _ => true | None => false end) xs
  end.

(** Keep the cells whose mask bit is set. *)
Fixpoint keep {A} (mask : list bool) (xs : list A) : list A :=
  match mask, xs with
  | b :: mask', x :: xs' => if b then x :: keep mask' xs' else keep mask' xs'
  | _, _ => []
  end.

Definition keep_col (mask : list bool) (c : column) : column :=
  match c with
  | IntCol xs => IntCol (keep mask xs)
  | FloatCol w xs => FloatCol w (keep mask xs)
  | ObjCol xs => ObjCol (keep mask xs)
  | CatCol xs => CatCol (keep mask xs)
  end.

Definition count_true (mask : list bool) : nat := length (List.filter id mask).

(** Boolean row selection [data[mask]]. *)
Definition select_rows (mask : list bool) (data : frame) : frame :=
  mkFrame (count_true mask)
          (map (fun nc => (fst nc, keep_col mask (snd nc))) (columns data)).

(** [data.dropna(subset=[name], inplace=True)] *)
Definition dropna_subset (name : string) (data : frame) : frame :=
  match getcol name data with
  | Some c => select_rows (present_mask c) data
  | None => data
  end.

(** [data.replace([np.inf, -np.inf], np.nan, inplace=True)] *)
Definition inf_to_nan (v : fval) : fval :=
  match v with
  | PosInf | NegInf => NaN
  | _ => v
  end.

Definition replace_inf_col (c : column) : column :=
  match c with
  | FloatCol w xs => FloatCol w (map inf_to_nan xs)
  | _ => c
  end.

Definition replace_inf (data : frame) : frame :=
  mkFrame (nrows data) (map (fun nc => (fst nc, replace_inf_col (snd nc))) (columns data)).

(** [select_dtypes(include=['int', 'float'])]: pandas reads ['int'] as the
    integer types int32 and int64 and ['float'] as float32 and float64, so
    the integer and the floating columns of either width are selected. *)
Definition is_numeric (c : column) : bool :=
  match c with
  | IntCol _ => true
  | FloatCol _ _ => true
  | _ => false
  end.

Definition select_numeric (data : frame) : list string :=
  map fst (List.filter (fun nc => is_numeric (snd nc)) (columns data)).

(** Order of float cells as numpy sorts them (NaN is never compared: the
    median skips it). *)
Definition fval_leb (a b : fval) : bool :=
  match a, b with
  | NegInf, _ => true
  | _, PosInf => true
  | Fin x, Fin y => Qle_bool x y
  | _, _ => false
  end.

Fixpoint insert_sorted (x : fval) (l : list fval) : list fval :=
  match l with
  | [] => [x]
  | y :: l' => if fval_leb x y then x :: l else y :: insert_sorted x l'
  end.

Definition sort_fvals (l : list fval) : list fval :=
  fold_right insert_sorted [] l.

(** The magnitude from which a binary64 sum rounds to an infinity,
    2^1024 - 2^970.  The floating columns [pd.read_csv] hands to
    [handle_missing_values] are binary64. *)
Definition float64_overflow : Q := inject_Z (2 ^ 1024 - 2 ^ 970).

(** Mean of the two middle elements, as numpy takes it: the sum first,
    which overflows to an infinity from [float64_overflow] on, then the
    half.  Rounding below the overflow is not modelled. *)
Definition fval_mid (a b : fval) : fval :=
  match a, b with
  | Fin x, Fin y =>
      if Qle_bool float64_overflow (x + y) then PosInf
      else if Qle_bool (x + y) (- float64_overflow) then NegInf
      else Fin (Qred ((x + y) / 2))
  | PosInf, NegInf | NegInf, PosInf => NaN
  | NaN, _ | _, NaN => NaN
  | PosInf, _ | _, PosInf => PosInf
  | NegInf, _ | _, NegInf => NegInf
  end.

(** [Series.median()]: the median of the non-missing cells, NaN when there
    is none. *)
Definition median (xs : list fval) : fval :=
  let s := sort_fvals (List.filter fval_notna xs) in
  let n := length s in
  if Nat.eqb n 0 then NaN
  else if Nat.odd n then nth (n / 2) s NaN
  else fval_mid (nth (n / 2 - 1) s NaN) (nth (n / 2) s NaN).

Definition col_median (c : column) : fval :=
  match c with
  | IntCol xs => median (map (fun z => Fin (inject_Z z)) xs)
  | FloatCol _ xs => median xs
  | _ => NaN
  end.

(** [Series.fillna(v, inplace=True)] on one cell. *)
Definition fill_cell (v x : fval) : fval :=
  match x with NaN => v | _ => x end.

Definition fillna (v : fval) (c : column) : column :=
  match c with
  | FloatCol w xs => FloatCol w (map (fill_cell v) xs)
  | _ => c
  end.

(** [data[col].fillna(data[col].median(), inplace=True)] *)
Definition fill_median (c : column) : column := fillna (col_median c) c.

Definition label_missing_msg : string := "Label column not found in the dataset.".

(** The loop of lines 22-23 over the numeric columns.  The fill through
    [data[col]] reaches the table, as it does without copy-on-write. *)
Definition fill_numeric (data : frame) : frame :=
  fold_left (fun d col => update_col fill_median col d) (select_numeric data) data.

Definition handle_missing_values (data : frame) : ui frame :=
  (data1 <- (if has_column "Label" data
             then ui_ret (dropna_subset "Label" data)
             else (emit (StError label_missing_msg) ;;; ui_ret data)) ;;
   ui_ret (fill_numeric (replace_inf data1)))%ui.

(** The cells of a numeric column as floats, and the test for a cell that
    is neither missing nor infinite. *)
Definition cells (c : column) : list fval :=
  match c with
  | IntCol xs => map (fun z => Fin (inject_Z z)) xs
  | FloatCol _ xs => xs
  | _ => []
  end.

Definition is_finite (v : fval) : bool :=
  match v with Fin _ => true | _ => false end.

(* ===================================================================== *)
(** ** Exceptions and the external libraries *)
(* ===================================================================== *)

Inductive exn : Type :=
| KeyError (key : string)
| ValueError (msg : string)
| TypeError
| IndexError
| AttributeError
| JSONDecodeError
| RequestException
| DanglingReference.

Inductive result (A : Type) : Type :=
| Ok (a : A)
| Raise (e : exn).
Arguments Ok {A} a.
Arguments Raise {A} e.

(** The four arrays returned by [train_test_split]; the rows of the scaled
    feature matrix have the library's row type. *)
Record split (row : Type) : Type := mkSplit {
  X_train : list row;
  X_test : list row;
  y_train : list Z;
  y_test : list Z
}.
Arguments mkSplit {row}.
Arguments X_train {row}.
Arguments X_test {row}.
Arguments y_train {row}.
Arguments y_test {row}.

(** The calls into pandas and scikit-learn whose results depend on binary
    floating point, square roots or a seeded random generator.  The pipeline
    is parametric in them.
    - [fits_float32 xs]: the closeness test of [pd.to_numeric(...,
      downcast='float')], true when the cells survive the cast to float32.
    - [pd_concat]: [pd.concat(frames, ignore_index=True)].
    - [features_and_split]: lines 69-78 of [preprocess_data], from
      [get_dummies] to [train_test_split(..., test_size=0.2,
      random_state=42, stratify=y)], with the fitted scaler; it reads the
      table and builds new ones.
    - [fit_classifier n X y]: the [predict] of a random forest of [n] trees
      fitted with seed 42, one label per row.
    - [fit_detector X]: the [predict] of an isolation forest fitted with
      contamination 0.1 and seed 42, one verdict (1 or -1) per row. *)
Record library : Type := mkLibrary {
  row : Type;
  scaler : Type;
  fits_float32 : list fval -> bool;
  pd_concat : list frame -> result frame;
  features_and_split : frame -> result (split row * scaler);
  fit_classifier : nat -> list row -> list Z -> row -> Z;
  fit_detector : list row -> row -> Z
}.

(* ===================================================================== *)
(** ** [optimize_memory_usage] *)
(* ===================================================================== *)

(** [pd.to_numeric(data[col], downcast='float')]: the column becomes
    float32 when its cells pass the closeness test, and is left as it is
    otherwise.  The cells keep their (exact) values; only the storage width
    changes. *)
Definition downcast_float (L : library) (c : column) : column :=
  match c with
  | IntCol xs =>
      let ys := map (fun z => Fin (inject_Z z)) xs in
      if fits_float32 L ys then FloatCol W32 ys else c
  | FloatCol W64 xs => if fits_float32 L xs then FloatCol W32 xs else c
  | _ => c
  end.

Definition is_object (c : column) : bool :=
  match c with ObjCol _ => true | _ => false end.

Definition select_object (data : frame) : list string :=
  map fst (List.filter (fun nc => is_object (snd nc)) (columns data)).

(** [data[col].astype('category')] *)
Definition astype_category (c : column) : column :=
  match c with
  | ObjCol xs => CatCol xs
  | _ => c
  end.

Definition optimize_memory_usage (L : library) (data : frame) : ui frame :=
  (data1 <- handle_missing_values data ;;
   let data2 := fold_left (fun d col => update_col (downcast_float L) col d)
                          (select_numeric data1) data1 in
   ui_ret (fold_left (fun d col => update_col astype_category col d)
                     (select_object data2) data2))%ui.

(* ===================================================================== *)
(** ** [load_and_combine_data] *)
(* ===================================================================== *)

(** White space as [str.strip] sees it, on the UTF-8 bytes of a text: the
    one-byte characters U+0009-000D, U+001C-001F and U+0020, the two-byte
    characters U+0085 and U+00A0, and the three-byte characters U+1680,
    U+2000-200A, U+2028, U+2029, U+202F, U+205F and U+3000. *)
Definition is_space (a : ascii) : bool :=
  let n := nat_of_ascii a in
  ((9 <=? n)%nat && (n <=? 13)%nat) || ((28 <=? n)%nat && (n <=? 32)%nat).

Definition is_space2 (a b : ascii) : bool :=
  let m := nat_of_ascii b in
  Nat.eqb (nat_of_ascii a) 194 && (Nat.eqb m 133 || Nat.eqb m 160).

Definition is_space3 (a b c : ascii) : bool :=
  let l := nat_of_ascii a in
  let m := nat_of_ascii b in
  let n := nat_of_ascii c in
  (Nat.eqb l 225 && Nat.eqb m 154 && Nat.eqb n 128)
  || (Nat.eqb l 226 && Nat.eqb m 128
      && (((128 <=? n)%nat && (n <=? 138)%nat)
          || Nat.eqb n 168 || Nat.eqb n 169 || Nat.eqb n 175))
  || (Nat.eqb l 226 && Nat.eqb m 129 && Nat.eqb n 159)
  || (Nat.eqb l 227 && Nat.eqb m 128 && Nat.eqb n 128).

(** Drop the white-space characters at the front. *)
Fixpoint lstrip (s : string) : string :=
  match s with
  | EmptyString => EmptyString
  | String a s1 =>
      if is_space a then lstrip s1
      else
        match s1 with
        | EmptyString => s
        | String b s2 =>
            if is_space2 a b then lstrip s2
            else
              match s2 with
              | EmptyString => s
              | String c s3 => if is_space3 a b c then lstrip s3 else s
              end
        end
  end.

(** The same on the reversed bytes, where a character shows its last byte
    first. *)
Fixpoint lstrip_reversed (s : string) : string :=
  match s with
  | EmptyString => EmptyString
  | String a s1 =>
      if is_space a then lstrip_reversed s1
      else
        match s1 with
        | EmptyString => s
        | String b s2 =>
            if is_space2 b a then lstrip_reversed s2
            else
              match s2 with
              | EmptyString => s
              | String c s3 => if is_space3 c b a then lstrip_reversed s3 else s
              end
        end
  end.

Fixpoint string_rev (s : string) : string :=
  match s with
  | EmptyString => EmptyString
  | String a s' => String.append (string_rev s') (String a EmptyString)
  end.

Definition strip (s : string) : string :=
  string_rev (lstrip_reversed (string_rev (lstrip s))).

(** [chunk.columns = chunk.columns.str.strip()] *)
Definition strip_columns (data : frame) : frame :=
  mkFrame (nrows data) (map (fun nc => (strip (fst nc), snd nc)) (columns data)).

(** [chunk.rename(columns={old: new}, inplace=True)] *)
Definition rename_column (old new : string) (data : frame) : frame :=
  mkFrame (nrows data)
          (map (fun nc => (if String.eqb (fst nc) old then new else fst nc, snd nc))
               (columns data)).

(** Replace the first column called [name], or append a new one. *)
Fixpoint set_assoc (name : string) (c : column) (cs : list (string * column))
    : list (string * column) :=
  match cs with
  | [] => [(name, c)]
  | (n, c') :: rest =>
      if String.eqb name n then (n, c) :: rest
      else (n, c') :: set_assoc name c rest
  end.

Definition set_column (name : string) (c : column) (data : frame) : frame :=
  mkFrame (nrows data) (set_assoc name c (columns data)).

(** [data[name] = scalar]: the scalar is broadcast over the index. *)
Definition setitem_scalar (name : string) (s : string) (data : frame) : frame :=
  set_column name (ObjCol (repeat (Some s) (nrows data))) data.

(** [data[name] = values]: the values must be as long as the index. *)
Definition setitem (name : string) (c : column) (data : frame) : result frame :=
  if Nat.eqb (col_length c) (nrows data) then Ok (set_column name c data)
  else Raise (ValueError "Length of values does not match length of index").

(** Lines 45-52: the column names are trimmed and the label column is
    found, renamed or created. *)
Definition normalize_label (chunk : frame) : frame :=
  let chunk1 := strip_columns chunk in
  if has_column "label" chunk1 then rename_column "label" "Label" chunk1
  else if has_column "Class" chunk1 then rename_column "Class" "Label" chunk1
  else setitem_scalar "Label" "normal" chunk1.

(** The body of the inner loop: one chunk as appended to [combined_data]. *)
Definition process_chunk (L : library) (chunk : frame) : ui frame :=
  optimize_memory_usage L (normalize_label chunk).

Fixpoint ui_map {A B} (f : A -> ui B) (xs : list A) : ui (list B) :=
  match xs with
  | [] => ui_ret []
  | x :: xs' => (y <- f x ;; ys <- ui_map f xs' ;; ui_ret (y :: ys))%ui
  end.

(** An uploaded file is the sequence of chunks [pd.read_csv(...,
    chunksize=10000)] yields.  The result is the argument of [pd.concat]
    paired with the log. *)
Definition load_chunks (L : library) (uploaded_files : list (list frame))
    : ui (list frame) :=
  ui_map (process_chunk L) (concat uploaded_files).

Definition load_and_combine_data (L : library) (uploaded_files : list (list frame))
    : ui (result frame) :=
  (combined_data <- load_chunks L uploaded_files ;;
   ui_ret (pd_concat L combined_data))%ui.

(* ===================================================================== *)
(** ** [LabelEncoder] *)
(* ===================================================================== *)

(** Insertion into a sorted list without repetition, for a total preorder
    [leb]; two values are the same class when each is below the other. *)
Fixpoint insert_unique {A} (leb : A -> A -> bool) (x : A) (l : list A) : list A :=
  match l with
  | [] => [x]
  | y :: l' =>
      if leb x y then (if leb y x then l else x :: l)
      else y :: insert_unique leb x l'
  end.

(** [np.unique]: the sorted distinct values. *)
Definition unique {A} (leb : A -> A -> bool) (xs : list A) : list A :=
  fold_right (insert_unique leb) [] xs.

(** Position of the class of [x] in [classes]. *)
Fixpoint index_of {A} (leb : A -> A -> bool) (x : A) (classes : list A) : nat :=
  match classes with
  | [] => 0
  | y :: rest => if leb x y && leb y x then 0 else S (index_of leb x rest)
  end.

Definition encode {A} (leb : A -> A -> bool) (xs : list A) : list Z :=
  let classes := unique leb xs in
  map (fun x => Z.of_nat (index_of leb x classes)) xs.

(** Floats in numpy's sort order, NaN last. *)
Definition fval_total_leb (a b : fval) : bool :=
  match a, b with
  | _, NaN => true
  | NaN, _ => false
  | _, _ => fval_leb a b
  end.

(** Text by code point, the missing marker last. *)
Definition text_leb (a b : option string) : bool :=
  match a, b with
  | _, None => true
  | None, Some _ => false
  | Some x, Some y => String.leb x y
  end.

(** [le.classes_] after [le.fit(y)] *)
Definition classes_of (y : column) : column :=
  match y with
  | IntCol xs => IntCol (unique Z.leb xs)
  | FloatCol w xs => FloatCol w (unique fval_total_leb xs)
  | ObjCol xs => ObjCol (unique text_leb xs)
  | CatCol xs => ObjCol (unique text_leb xs)
  end.

(** [le.fit_transform(y)]: every label replaced by the position of its
    class. *)
Definition fit_transform (y : column) : list Z :=
  match y with
  | IntCol xs => encode Z.leb xs
  | FloatCol _ xs => encode fval_total_leb xs
  | ObjCol xs => encode text_leb xs
  | CatCol xs => encode text_leb xs
  end.

(* ===================================================================== *)
(** ** Programs over the heap *)
(* ===================================================================== *)

(** A program reads and writes the tables on the heap, appends to the log
    and may raise.  What was written before an exception stays written. *)
Definition prog (A : Type) : Type :=
  gmap nat frame -> result A * gmap nat frame * list ui_event.

Definition prog_ret {A} (a : A) : prog A := fun h => (Ok a, h, []).

Definition prog_bind {A B} (m : prog A) (k : A -> prog B) : prog B :=
  fun h =>
    match m h with
    | (Ok a, h1, l1) => let '(r, h2, l2) := k a h1 in (r, h2, l1 ++ l2)
    | (Raise e, h1, l1) => (Raise e, h1, l1)
    end.

Definition lift_result {A} (r : result A) : prog A := fun h => (r, h, []).

Definition lift_ui {A} (m : ui A) : prog A := fun h => (Ok (fst m), h, snd m).

Definition say (e : ui_event) : prog unit := lift_ui (emit e).

(** Read the table a reference points to. *)
Definition deref (l : nat) : prog frame :=
  fun h =>
    match h !! l with
    | Some d => (Ok d, h, [])
    | None => (Raise DanglingReference, h, [])
    end.

(** Overwrite the table a reference points to (an in-place update). *)
Definition assign (l : nat) (d : frame) : prog unit :=
  fun h => (Ok tt, <[l := d]> h, []).

(** Store a new table and return the reference to it. *)
Definition alloc (d : frame) : prog nat :=
  fun h => let l := fresh (dom h) in (Ok l, <[l := d]> h, []).

Declare Scope prog_scope.
Delimit Scope prog_scope with prog.
Notation "x <- m ;; k" := (prog_bind m (fun x => k))
  (at level 100, m at next level, right associativity) : prog_scope.
Notation "m ;;; k" := (prog_bind m (fun _ => k))
  (at level 100, right associativity) : prog_scope.

(* ===================================================================== *)
(** ** [preprocess_data] *)
(* ===================================================================== *)

Definition getitem (name : string) (data : frame) : result column :=
  match getcol name data with
  | Some c => Ok c
  | None => Raise (KeyError name)
  end.

(** [data.drop(columns=names, inplace=True, errors='ignore')] *)
Definition drop_columns (names : list string) (data : frame) : frame :=
  mkFrame (nrows data)
          (List.filter (fun nc => negb (existsb (String.eqb (fst nc)) names))
                       (columns data)).

Definition irrelevant_cols : list string := ["Timestamp"; "ID"].

(** The fitted encoder is represented by its classes. *)
Definition preprocess_data (L : library) (data : nat)
    : prog (split (row L) * scaler L * column) :=
  (d <- deref data ;;
   y <- lift_result (getitem "Label" d) ;;
   let le := classes_of y in
   d1 <- lift_result (setitem "Label" (IntCol (fit_transform y)) d) ;;
   assign data d1 ;;;
   say (PrintValueCounts "Class Distribution After Encoding:" (fit_transform y)) ;;;
   d2 <- deref data ;;
   assign data (drop_columns irrelevant_cols d2) ;;;
   d3 <- deref data ;;
   r <- lift_result (features_and_split L d3) ;;
   prog_ret (fst r, snd r, le))%prog.

(* ===================================================================== *)
(** ** [evaluate_model] *)
(* ===================================================================== *)

Definition inconsistent_lengths : exn :=
  ValueError "Found input variables with inconsistent numbers of samples".

Definition b2z (b : bool) : Z := if b then 1%Z else 0%Z.

(** The mean of a boolean array, NaN when it is empty. *)
Definition average (score : list bool) : fval :=
  match score with
  | [] => NaN
  | _ => Fin (inject_Z (fold_right Z.add 0%Z (map b2z score))
              / inject_Z (Z.of_nat (length score)))
  end.

(** [sklearn.metrics.accuracy_score] *)
Definition accuracy_score (y_true y_pred : list Z) : result fval :=
  if Nat.eqb (length y_true) (length y_pred)
  then Ok (average (map (fun tp => Z.eqb (fst tp) (snd tp)) (combine y_true y_pred)))
  else Raise inconsistent_lengths.

(** Number of samples with true label [a] and predicted label [b]. *)
Definition count_pair (a b : Z) (pairs : list (Z * Z)) : nat :=
  length (List.filter (fun tp => Z.eqb (fst tp) a && Z.eqb (snd tp) b) pairs).

(** [sklearn.metrics.confusion_matrix]: rows are true labels, columns are
    predicted labels, both in the sorted order of the labels that occur. *)
Definition matrix_labels (y_true y_pred : list Z) : list Z :=
  unique Z.leb (y_true ++ y_pred).

Definition confusion_matrix (y_true y_pred : list Z) : result (list (list nat)) :=
  if Nat.eqb (length y_true) (length y_pred)
  then
    let labels := matrix_labels y_true y_pred in
    let pairs := combine y_true y_pred in
    Ok (map (fun a => map (fun b => count_pair a b pairs) labels) labels)
  else Raise inconsistent_lengths.

Definition evaluate_model {R : Type} (model : R -> Z) (X_test : list R)
    (y_test : list Z) : prog unit :=
  (let predictions := map model X_test in
   accuracy <- lift_result (accuracy_score y_test predictions) ;;
   say (StWrite "### Model Performance") ;;;
   say (StWriteAccuracy accuracy) ;;;
   say (StTextReport y_test predictions) ;;;
   cm <- lift_result (confusion_matrix y_test predictions) ;;
   say (StWrite "#### Confusion Matrix") ;;;
   say (StWriteMatrix cm))%prog.

(* ===================================================================== *)
(** ** Model training and [main] *)
(* ===================================================================== *)

Definition train_model (L : library) (X_train : list (row L)) (y_train : list Z)
    (n_estimators : nat) : row L -> Z :=
  fit_classifier L n_estimators X_train y_train.

Definition train_anomaly_detector (L : library) (X_train : list (row L)) : row L -> Z :=
  fit_detector L X_train.

(** [np.where(anomaly_predictions == -1, "Anomaly", "Normal")] *)
Definition verdict (p : Z) : string :=
  if Z.eqb p (-1) then "Anomaly" else "Normal".

(** [anomaly_predictions.tolist() + [None] * (n - len(anomaly_predictions))];
    a list repeated a negative number of times is empty. *)
Definition anomaly_column (anomaly_predictions : list string) (n : nat)
    : list (option string) :=
  map Some anomaly_predictions ++ repeat None (n - length anomaly_predictions).

(** [data[name] == s], row by row; a missing cell equals nothing. *)
Definition eq_mask (s : string) (c : column) : list bool :=
  match c with
  | ObjCol xs | CatCol xs =>
      map (fun o => match o with Some t => String.eqb t s | None => false end) xs
  | IntCol xs => map (fun _ => false) xs
  | FloatCol _ xs => map (fun _ => false) xs
  end.

(** [df.empty]: some axis has length zero. *)
Definition frame_empty (data : frame) : bool :=
  Nat.eqb (nrows data) 0 || Nat.eqb (length (columns data)) 0.

Definition firstn_col (n : nat) (c : column) : column :=
  match c with
  | IntCol xs => IntCol (firstn n xs)
  | FloatCol w xs => FloatCol w (firstn n xs)
  | ObjCol xs => ObjCol (firstn n xs)
  | CatCol xs => CatCol (firstn n xs)
  end.

(** [data.head()] *)
Definition head (data : frame) : frame :=
  mkFrame (Nat.min 5 (nrows data))
          (map (fun nc => (fst nc, firstn_col 5 (snd nc))) (columns data)).

Definition alert_msg : string := "⚠️ ALERT: Suspicious activities detected!".
Definition clear_msg : string := "✅ No threats detected.".

(** The body of [if st.button("Detect Anomalies"):], lines 144-156. *)
Definition detect_anomalies {R : Type} (anomaly_detector : R -> Z)
    (X_test : list R) (combined_data : nat) : prog unit :=
  (let anomaly_predictions := map anomaly_detector X_test in
   let anomaly_predictions := map verdict anomaly_predictions in
   d <- deref combined_data ;;
   d1 <- lift_result
           (setitem "Anomaly Prediction"
                    (ObjCol (anomaly_column anomaly_predictions (nrows d))) d) ;;
   assign combined_data d1 ;;;
   d2 <- deref combined_data ;;
   flags <- lift_result (getitem "Anomaly Prediction" d2) ;;
   let suspicious := select_rows (eq_mask "Anomaly" flags) d2 in
   say (StSubheader "Suspicious Activities Detected") ;;;
   say (StDataframe suspicious) ;;;
   if negb (frame_empty suspicious) then say (StError alert_msg)
   else say (StSuccess clear_msg))%prog.

(** [uploaded_files], the slider value and whether the button was pressed
    are the inputs of one run of the script. *)
Definition main (L : library) (uploaded_files : list (list frame))
    (n_estimators : nat) (detect_pressed : bool) : prog unit :=
  (say (StTitle "Cybersecurity Intrusion Detection") ;;;
   say (StImage "logo.png" 700) ;;;
   match uploaded_files with
   | [] => prog_ret tt
   | _ =>
       loaded <- lift_ui (load_and_combine_data L uploaded_files) ;;
       table <- lift_result loaded ;;
       combined_data <- alloc table ;;
       say (StSubheader "Dataset Overview") ;;;
       d <- deref combined_data ;;
       say (StDataframe (head d)) ;;;
       r <- preprocess_data L combined_data ;;
       let parts := fst (fst r) in
       say (StSubheader "Model Training") ;;;
       let model := train_model L (X_train parts) (y_train parts) n_estimators in
       let anomaly_detector := train_anomaly_detector L (X_train parts) in
       say (StSubheader "Model Evaluation") ;;;
       evaluate_model model (X_test parts) (y_test parts) ;;;
       if detect_pressed
       then detect_anomalies anomaly_detector (X_test parts) combined_data
       else prog_ret tt
   end)%prog.

(* ===================================================================== *)
(** ** [predict_with_groq] *)
(* ===================================================================== *)

(** A decoded JSON value, as [response.json()] returns it. *)
#[local] Unset Elimination Schemes.
Inductive json : Type :=
| JNull
| JBool (b : bool)
| JNumber (q : Q)
| JString (s : string)
| JArray (items : list json)
| JObject (members : list (string * json)).
#[local] Set Elimination Schemes.

Record request : Type := mkRequest {
  url : string;
  headers : list (string * string);
  payload : json
}.

(** [body] is [None] when the body of the response is not JSON. *)
Record response : Type := mkResponse {
  status_code : nat;
  body : option json
}.

Definition GROQ_API_URL : string := "https://api.groq.com/v1/completions".
Definition API_KEY : string := "your-api-key-here".
Definition fallback : json := JString "No response".

Definition result_bind {A B} (r : result A) (k : A -> result B) : result B :=
  match r with
  | Ok a => k a
  | Raise e => Raise e
  end.

Declare Scope result_scope.
Delimit Scope result_scope with result.
Notation "x <- m ;; k" := (result_bind m (fun x => k))
  (at level 100, m at next level, right associativity) : result_scope.

(** [response.json()] *)
Definition response_json (r : response) : result json :=
  match body r with
  | Some j => Ok j
  | None => Raise JSONDecodeError
  end.

(** A decoded object keeps the last value of a repeated key. *)
Definition dict_lookup (key : string) (members : list (string * json)) : option json :=
  fold_left (fun acc kv => if String.eqb (fst kv) key then Some (snd kv) else acc)
            members None.

(** [v.get(key, default)]; only a dict has the method. *)
Definition py_get (key : string) (default : json) (v : json) : result json :=
  match v with
  | JObject members =>
      Ok (match dict_lookup key members with Some x => x | None => default end)
  | _ => Raise AttributeError
  end.

(** [v[0]] *)
Definition py_first (v : json) : result json :=
  match v with
  | JArray [] => Raise IndexError
  | JArray (x :: _) => Ok x
  | JString EmptyString => Raise IndexError
  | JString (String a _) => Ok (JString (String a EmptyString))
  | JObject _ => Raise (KeyError "0")
  | _ => Raise TypeError
  end.

Definition predict_with_groq (post : request -> result response)
    (input_data : string) : result json :=
  (let headers := [("Authorization", String.append "Bearer " API_KEY);
                   ("Content-Type", "application/json")] in
   let payload :=
     JObject [("model", JString "qwen-2.5-32b");
              ("prompt", JString (String.append
                 "Analyze the following network traffic data: " input_data));
              ("temperature", JNumber (6 # 10));
              ("max_tokens", JNumber (100 # 1))] in
   response <- post (mkRequest GROQ_API_URL headers payload) ;;
   reply <- response_json response ;;
   choices <- py_get "choices" (JArray [JObject []]) reply ;;
   first <- py_first choices ;;
   py_get "text" fallback first)%result.

(* ===================================================================== *)
(** ** Notions used in the statements *)
(* ===================================================================== *)

(** What [handle_missing_values] leaves in a numeric cell [x] whose column
    has median [m] over its finite cells. *)
Definition imputed (m x : fval) : fval := if is_finite x then x else m.

(** The table written back and the view shown by the button branch. *)
Definition flagged_table {R : Type} (det : R -> Z) (X_test : list R) (d : frame) : frame :=
  set_column "Anomaly Prediction"
    (ObjCol (anomaly_column (map verdict (map det X_test)) (nrows d))) d.

Definition flagged_view {R : Type} (det : R -> Z) (X_test : list R) (d : frame) : frame :=
  select_rows
    (eq_mask "Anomaly" (ObjCol (anomaly_column (map verdict (map det X_test)) (nrows d))))
    (flagged_table det X_test d).

Definition flagged_log {R : Type} (det : R -> Z) (X_test : list R) (d : frame)
    : list ui_event :=
  [StSubheader "Suspicious Activities Detected";
   StDataframe (flagged_view det X_test d);
   if negb (frame_empty (flagged_view det X_test d))
   then StError alert_msg else StSuccess clear_msg].

(** The counts the specification speaks of, taken over the rows of the test
    partition: rows predicted correctly, rows of a class, rows of a class
    predicted correctly. *)
Definition correct_rows {R : Type} (model : R -> Z) (X_test : list R)
    (y_test : list Z) : nat :=
  length (List.filter (fun xy => Z.eqb (model (fst xy)) (snd xy)) (combine X_test y_test)).

Definition rows_of_class (a : Z) (y_test : list Z) : nat :=
  length (List.filter (Z.eqb a) y_test).

Definition correct_rows_of_class {R : Type} (model : R -> Z) (a : Z)
    (X_test : list R) (y_test : list Z) : nat :=
  length (List.filter (fun xy => Z.eqb (snd xy) a && Z.eqb (model (fst xy)) a)
                      (combine X_test y_test)).

Definition hit (a b : Z) (tp : Z * Z) : nat :=
  if Z.eqb (fst tp) a && Z.eqb (snd tp) b then 1%nat else 0%nat.

(** The combined table as [preprocess_data] leaves it: the labels encoded
    in place, then the identifier and time columns dropped in place. *)
Definition preprocessed (d : frame) (y : column) : frame :=
  drop_columns irrelevant_cols (set_column "Label" (IntCol (fit_transform y)) d).

Definition class_distribution (y : column) : ui_event :=
  PrintValueCounts "Class Distribution After Encoding:" (fit_transform y).

(* ===================================================================== *)
(** ** A small instance *)
(* ===================================================================== *)

(** A stand-in for the libraries, for running the pipeline on examples:
    every column fits float32, a single chunk is its own concatenation, the
    features are the cells of the column "bytes", the first row is the test
    partition, the classifier answers 0 and the detector flags the rows
    above 10. *)
Definition demo_library : library :=
  mkLibrary fval unit
    (fun _ => true)
    (fun frames =>
       match frames with
       | [f] => Ok f
       | _ => Raise (ValueError "not a single chunk")
       end)
    (fun d =>
       match getcol "bytes" d, getcol "Label" d with
       | Some xs, Some (IntCol ys) =>
           Ok (mkSplit (skipn 1 (cells xs)) (firstn 1 (cells xs))
                       (skipn 1 ys) (firstn 1 ys), tt)
       | _, _ => Raise (ValueError "no features")
       end)
    (fun _ _ _ _ => 0%Z)
    (fun _ x =>
       match x with
       | Fin q => if Qle_bool q 10 then 1%Z else (-1)%Z
       | _ => (-1)%Z
       end).

Definition demo_chunk : frame :=
  mkFrame 3 [("bytes ", IntCol [50; 7; 9]%Z);
             ("Timestamp", IntCol [1; 2; 3]%Z);
             ("label", ObjCol [Some "attack"; Some "normal"; Some "normal"])].

Definition demo_labelled_chunk : frame :=
  mkFrame 2 [(" Label", ObjCol [Some "attack"; Some "dos"]);
             ("bytes", IntCol [1; 2]%Z)].

(** U+00A0 and U+2003 in UTF-8. *)
Definition no_break_space : string :=
  String "194"%char (String "160"%char EmptyString).

Definition em_space : string :=
  String "226"%char (String "128"%char (String "131"%char EmptyString)).

(* ===================================================================== *)
(** ** Further notions used in the statements *)
(* ===================================================================== *)

(** Every column is as long as the index. *)
Definition rectangular (data : frame) : Prop :=
  Forall (fun nc => col_length (snd nc) = nrows data) (columns data).

Definition is_infinite (v : fval) : bool :=
  match v with PosInf | NegInf => true | _ => false end.

(** A column without an infinite cell. *)
Definition inf_free (c : column) : Prop :=
  match c with
  | FloatCol _ xs => Forall (fun v => is_infinite v = false) xs
  | _ => True
  end.

(** Object and category columns, and their cells. *)
Definition is_text (c : column) : bool :=
  match c with ObjCol _ | CatCol _ => true | _ => false end.

Definition text_cells (c : column) : list (option string) :=
  match c with ObjCol xs | CatCol xs => xs | _ => [] end.

Definition is_present (o : option string) : bool :=
  match o with Some _ => true | None => false end.

(** The table on which lines 21-23 work: the rows with a label when there
    is a "Label" column, the table as it came otherwise. *)
Definition labelled_rows (data : frame) : frame :=
  if has_column "Label" data then dropna_subset "Label" data else data.

(** The sum of the diagonal of a matrix and the sum of all its entries. *)
Fixpoint trace_from (i : nat) (cm : list (list nat)) : nat :=
  match cm with
  | [] => 0%nat
  | cells_i :: rest => (nth i cells_i 0 + trace_from (S i) rest)%nat
  end.

Definition matrix_trace (cm : list (list nat)) : nat := trace_from 0 cm.

Definition matrix_total (cm : list (list nat)) : nat := list_sum (map list_sum cm).

(** The request [predict_with_groq] sends for [input_data]. *)
Definition advisory_request (input_data : string) : request :=
  mkRequest GROQ_API_URL
    [("Authorization", String.append "Bearer " API_KEY);
     ("Content-Type", "application/json")]
    (JObject [("model", JString "qwen-2.5-32b");
              ("prompt", JString (String.append
                 "Analyze the following network traffic data: " input_data));
              ("temperature", JNumber (6 # 10));
              ("max_tokens", JNumber (100 # 1))]).

(** The text of a completion, or the placeholder. *)
Definition completion_text (fields : list (string * json)) : json :=
  match dict_lookup "text" fields with
  | Some text => text
  | None => fallback
  end.

(** A column stored in single precision, as only the downcast of
    [optimize_memory_usage] makes them. *)
Definition is_float32 (c : column) : bool :=
  match c with
  | FloatCol W32 _ => true
  | _ => false
  end.

(** The sum of two cells is beyond binary64: their mean is an infinity. *)
Definition overflows (a b : Q) : Prop :=
  (float64_overflow <= a + b)%Q \/ (a + b <= - float64_overflow)%Q.

(** The names other than [n]. *)
Definition without (n : string) (names : list string) : list string :=
  List.filter (fun m => negb (String.eqb n m)) names.

(** The loop [for col in names: data[col] = f(data[col])] seen column by
    column: the first column of each listed name is changed, once. *)
Fixpoint touch (f : column -> column) (names : list string)
    (cs : list (string * column)) : list (string * column) :=
  match cs with
  | [] => []
  | (n, c) :: rest =>
      if existsb (String.eqb n) names
      then (n, f c) :: touch f (without n names) rest
      else (n, c) :: touch f names rest
  end.

(* ===================================================================== *)
(** * Properties *)
(* ===================================================================== *)

(** Distinctness of a concrete list of column names. *)
Ltac distinct_names :=
  repeat (constructor;
          [simpl; intros Hdup;
           repeat (destruct Hdup as [Hdup|Hdup]; [discriminate Hdup|]);
           exact Hdup|]);
  constructor.

(** ** The operations on small inputs *)

Example median_odd : median [Fin 3; NaN; Fin 1; Fin 2] = Fin 2.
Proof. reflexivity. Qed.

Example median_even : median [Fin 1; Fin 4; NaN; Fin 2; Fin 3] = Fin (5 # 2).
Proof. reflexivity. Qed.

Example median_all_missing : median [NaN; NaN] = NaN.
Proof. reflexivity. Qed.

(** The cells 1.5e308 and 1.6e308: their sum is beyond binary64. *)
Example median_overflow :
  median [Fin (inject_Z (15 * 10 ^ 307)); NaN; Fin (inject_Z (16 * 10 ^ 307))] = PosInf.
Proof. vm_compute. reflexivity. Qed.

Example handle_missing_values_example :
  handle_missing_values
    (mkFrame 4 [("duration", FloatCol W64 [Fin 1; NaN; PosInf; Fin 4]);
                ("proto", ObjCol [Some "tcp"; None; Some "udp"; Some "tcp"]);
                ("Label", ObjCol [Some "normal"; Some "attack"; Some "normal"; None])])
  = (mkFrame 3 [("duration", FloatCol W64 [Fin 1; Fin 1; Fin 1]);
                ("proto", ObjCol [Some "tcp"; None; Some "udp"]);
                ("Label", ObjCol [Some "normal"; Some "attack"; Some "normal"])],
     []).
Proof. reflexivity. Qed.

Example strip_example : strip "  Flow Duration " = "Flow Duration".
Proof. reflexivity. Qed.

Example strip_unicode :
  strip (String.append em_space (String.append "label" no_break_space)) = "label".
Proof. reflexivity. Qed.

Example strip_inner_space :
  strip (String.append "Flow" (String.append no_break_space "Duration"))
  = String.append "Flow" (String.append no_break_space "Duration").
Proof. reflexivity. Qed.

(** A header "label" followed by a no-break space is renamed by line 48,
    next to a column "Label" that is already there. *)
Example normalize_label_unicode :
  colnames (normalize_label
              (mkFrame 1 [(String.append "label" no_break_space, ObjCol [Some "dos"]);
                          ("Label", ObjCol [Some "normal"]);
                          ("bytes", IntCol [1]%Z)]))
  = ["Label"; "Label"; "bytes"].
Proof. reflexivity. Qed.

Example fit_transform_example :
  fit_transform (CatCol [Some "normal"; Some "dos"; Some "normal"; Some "probe"])
  = [1; 0; 1; 2]%Z.
Proof. reflexivity. Qed.

Example confusion_matrix_example :
  confusion_matrix [0; 1; 1; 2]%Z [0; 1; 0; 1]%Z
  = Ok [[1; 0; 0]; [1; 1; 0]; [0; 1; 0]]%nat.
Proof. reflexivity. Qed.

Example anomaly_column_example :
  anomaly_column (map verdict [1; -1]%Z) 4
  = [Some "Normal"; Some "Anomaly"; None; None].
Proof. reflexivity. Qed.

(** ** Column lookup and update *)

Lemma assoc_update_same f name cs :
  assoc_col name (update_assoc f name cs) = option_map f (assoc_col name cs).
Proof.
  induction cs as [|[n c] cs IH]; simpl; [reflexivity|].
  destruct (String.eqb name n) eqn:E; simpl; rewrite E; auto.
Qed.

Lemma assoc_update_other f name name' cs :
  name <> name' ->
  assoc_col name' (update_assoc f name cs) = assoc_col name' cs.
Proof.
  intros Hne. induction cs as [|[n c] cs IH]; simpl; [reflexivity|].
  destruct (String.eqb name n) eqn:E; simpl.
  - apply String.eqb_eq in E. subst n.
    destruct (String.eqb name' name) eqn:E'; [|reflexivity].
    apply String.eqb_eq in E'. congruence.
  - destruct (String.eqb name' n); auto.
Qed.

Lemma assoc_map_snd (g : column -> column) name cs :
  assoc_col name (map (fun nc => (fst nc, g (snd nc))) cs)
  = option_map g (assoc_col name cs).
Proof.
  induction cs as [|[n c] cs IH]; simpl; [reflexivity|].
  destruct (String.eqb name n); auto.
Qed.

Lemma assoc_some_in name cs c :
  assoc_col name cs = Some c -> In (name, c) cs.
Proof.
  induction cs as [|[n c'] cs IH]; simpl; [discriminate|].
  destruct (String.eqb name n) eqn:E.
  - apply String.eqb_eq in E. intros [= ->]. subst. now left.
  - intros H. right. auto.
Qed.

Lemma getcol_update_same f name data :
  getcol name (update_col f name data) = option_map f (getcol name data).
Proof. apply assoc_update_same. Qed.

Lemma getcol_update_other f name name' data :
  name <> name' -> getcol name' (update_col f name data) = getcol name' data.
Proof. apply assoc_update_other. Qed.

Section FoldUpdate.
Variable f : column -> column.
Hypothesis f_idem : forall c, f (f c) = f c.

Let step := fun d col => update_col f col d.

Lemma fold_update_nrows names data :
  nrows (fold_left step names data) = nrows data.
Proof.
  revert data. induction names as [|a names IH]; intros data; simpl; [reflexivity|].
  rewrite IH. reflexivity.
Qed.

Lemma fold_update_notin names data name :
  ~ In name names ->
  getcol name (fold_left step names data) = getcol name data.
Proof.
  revert data. induction names as [|a names IH]; intros data Hn; simpl; [reflexivity|].
  rewrite IH by (intros H; apply Hn; now right).
  apply getcol_update_other. intros ->. apply Hn. now left.
Qed.

Lemma fold_update_in names data name :
  In name names ->
  getcol name (fold_left step names data) = option_map f (getcol name data).
Proof.
  revert data. induction names as [|a names IH]; intros data Hin; simpl; [destruct Hin|].
  destruct (in_dec string_dec name names) as [Hi|Hi].
  - rewrite IH by assumption.
    destruct (string_dec a name) as [->|Hne].
    + unfold step. rewrite getcol_update_same.
      destruct (getcol name data); simpl; [rewrite f_idem|]; reflexivity.
    + unfold step. rewrite getcol_update_other by assumption. reflexivity.
  - rewrite fold_update_notin by assumption.
    destruct Hin as [->|Hin]; [|contradiction].
    apply getcol_update_same.
Qed.
End FoldUpdate.

(** ** The median and the fill *)

Lemma insert_sorted_length x l : length (insert_sorted x l) = S (length l).
Proof.
  induction l as [|y l IH]; simpl; [reflexivity|].
  destruct (fval_leb x y); simpl; [reflexivity|]. now rewrite IH.
Qed.

Lemma insert_sorted_Forall (P : fval -> Prop) x l :
  P x -> Forall P l -> Forall P (insert_sorted x l).
Proof.
  intros Hx Hl. induction Hl as [|y l Hy Hl IH]; simpl.
  - constructor; [assumption|constructor].
  - destruct (fval_leb x y); repeat constructor; assumption.
Qed.

Lemma sort_fvals_length l : length (sort_fvals l) = length l.
Proof.
  induction l as [|x l IH]; simpl; [reflexivity|].
  rewrite insert_sorted_length. now rewrite IH.
Qed.

Lemma sort_fvals_Forall (P : fval -> Prop) l :
  Forall P l -> Forall P (sort_fvals l).
Proof.
  induction 1 as [|x l Hx Hl IH]; simpl; [constructor|].
  now apply insert_sorted_Forall.
Qed.

Lemma filter_notna_finite l :
  Forall (fun v => is_finite v = true) l -> List.filter fval_notna l = l.
Proof.
  induction 1 as [|x l Hx Hl IH]; simpl; [reflexivity|].
  destruct x; try discriminate. simpl. now rewrite IH.
Qed.

Lemma filter_finite_Forall l :
  Forall (fun v => is_finite v = true) (List.filter is_finite l).
Proof.
  induction l as [|x l IH]; simpl; [constructor|].
  destruct (is_finite x) eqn:E; [constructor|]; assumption.
Qed.

Lemma filter_notna_replaced l :
  List.filter fval_notna (map inf_to_nan l) = List.filter is_finite l.
Proof.
  induction l as [|x l IH]; simpl; [reflexivity|].
  destruct x; simpl; now rewrite IH.
Qed.

(** Replacing the infinities by NaN first, the median is the median of the
    finite cells. *)
Lemma median_replaced l : median (map inf_to_nan l) = median (List.filter is_finite l).
Proof.
  unfold median. rewrite filter_notna_replaced.
  rewrite (filter_notna_finite (List.filter is_finite l)) by apply filter_finite_Forall.
  reflexivity.
Qed.

Lemma nth_finite l i :
  Forall (fun v => is_finite v = true) l -> (i < length l)%nat ->
  is_finite (nth i l NaN) = true.
Proof.
  intros Hl Hi. rewrite List.Forall_forall in Hl. apply Hl. now apply nth_In.
Qed.

Lemma exists_finite_filter l :
  Exists (fun v => is_finite v = true) l -> List.filter is_finite l <> [].
Proof.
  induction 1 as [x l Hx|x l Hl IH]; simpl.
  - rewrite Hx. discriminate.
  - destruct (is_finite x); [discriminate|assumption].
Qed.

Lemma fill_cell_nan x : fill_cell NaN x = x.
Proof. now destruct x. Qed.

Lemma fill_cell_filled v x : fval_notna x = true -> fill_cell v x = x.
Proof. destruct x; simpl; congruence. Qed.

Lemma fill_cell_notna v x : fval_notna v = true -> fval_notna (fill_cell v x) = true.
Proof. destruct x; simpl; auto. Qed.

Lemma median_filled_cells v xs :
  fval_notna v = true ->
  map (fill_cell (median (map (fill_cell v) xs))) (map (fill_cell v) xs)
  = map (fill_cell v) xs.
Proof.
  intros Hv. rewrite map_map. apply map_ext. intros x.
  apply fill_cell_filled. now apply fill_cell_notna.
Qed.

(** Filling twice is filling once. *)
Lemma fill_median_idem c : fill_median (fill_median c) = fill_median c.
Proof.
  destruct c as [zs|w xs|os|os]; try reflexivity.
  unfold fill_median. simpl.
  destruct (fval_notna (median xs)) eqn:E.
  - now rewrite median_filled_cells.
  - destruct (median xs) eqn:Em; try discriminate.
    rewrite !(map_ext _ id fill_cell_nan), !map_id. rewrite Em.
    now rewrite (map_ext _ id fill_cell_nan), map_id.
Qed.

(** ** Imputation of one numeric column *)

Lemma getcol_replace_inf name data :
  getcol name (replace_inf data) = option_map replace_inf_col (getcol name data).
Proof. apply assoc_map_snd. Qed.

Lemma in_select_numeric name c data :
  getcol name data = Some c -> is_numeric c = true ->
  In name (select_numeric data).
Proof.
  intros Hg Hn. unfold select_numeric.
  apply assoc_some_in in Hg.
  apply (in_map fst) with (x := (name, c)).
  apply filter_In. split; assumption.
Qed.

Lemma replace_inf_numeric c : is_numeric (replace_inf_col c) = is_numeric c.
Proof. now destruct c. Qed.

Lemma getcol_fill_numeric name c data :
  getcol name data = Some c -> is_numeric c = true ->
  getcol name (fill_numeric data) = Some (fill_median c).
Proof.
  intros Hg Hn. unfold fill_numeric.
  rewrite (fold_update_in fill_median fill_median_idem)
    by (eapply in_select_numeric; eassumption).
  now rewrite Hg.
Qed.

Lemma fill_cell_replaced m x : fill_cell m (inf_to_nan x) = imputed m x.
Proof. now destruct x. Qed.

(** The cells of a numeric column after the replacement of infinities and
    the median fill. *)
Lemma impute_cells c :
  is_numeric c = true ->
  is_numeric (fill_median (replace_inf_col c)) = true /\
  cells (fill_median (replace_inf_col c))
  = map (imputed (median (List.filter is_finite (cells c)))) (cells c).
Proof.
  destruct c as [zs|w xs|os|os]; simpl; try discriminate; intros _.
  - split; [reflexivity|].
    rewrite map_map. apply map_ext. reflexivity.
  - split; [reflexivity|].
    rewrite median_replaced, map_map. apply map_ext. intros x.
    apply fill_cell_replaced.
Qed.

Lemma imputed_all_finite m xs :
  is_finite m = true ->
  Forall (fun v => is_finite v = true) (map (imputed m) xs).
Proof.
  intros Hm. apply List.Forall_forall. intros y Hy.
  apply in_map_iff in Hy as [x [<- _]]. unfold imputed.
  destruct (is_finite x) eqn:E; assumption.
Qed.

(** The shared core: the state of a numeric column after lines 21-23. *)
Lemma impute_column name c data :
  getcol name data = Some c -> is_numeric c = true ->
  exists c',
    getcol name (fill_numeric (replace_inf data)) = Some c' /\
    is_numeric c' = true /\
    cells c' = map (imputed (median (List.filter is_finite (cells c)))) (cells c) /\
    (is_finite (median (List.filter is_finite (cells c))) = true ->
     Forall (fun v => is_finite v = true) (cells c')).
Proof.
  intros Hg Hn.
  destruct (impute_cells c Hn) as [Hn' Hc].
  exists (fill_median (replace_inf_col c)). repeat split; try assumption.
  - apply getcol_fill_numeric.
    + rewrite getcol_replace_inf, Hg. reflexivity.
    + now rewrite replace_inf_numeric.
  - intros Hfin. rewrite Hc. now apply imputed_all_finite.
Qed.

Lemma lookup_map {A B} (f : A -> B) (l : list A) (i : nat) (x : A) :
  l !! i = Some x -> map f l !! i = Some (f x).
Proof.
  revert i. induction l as [|y l IH]; intros [|i]; simpl; try discriminate.
  - now intros [= ->].
  - apply IH.
Qed.

Lemma handle_missing_values_labelled data :
  has_column "Label" data = true ->
  handle_missing_values data
  = (fill_numeric (replace_inf (dropna_subset "Label" data)), []).
Proof. intros H. unfold handle_missing_values. rewrite H. reflexivity. Qed.

Lemma handle_missing_values_unlabelled data :
  has_column "Label" data = false ->
  handle_missing_values data
  = (fill_numeric (replace_inf data), [StError label_missing_msg]).
Proof. intros H. unfold handle_missing_values. rewrite H. reflexivity. Qed.

Lemma fill_numeric_nrows data : nrows (fill_numeric data) = nrows data.
Proof. unfold fill_numeric. apply fold_update_nrows. Qed.

(** ** Missing label column *)

(** C1, as stated, fails: a table without a "Label" column is reported and
    then imputed all the same.  Here the missing cell of column "x" comes
    back as the median 2 of the cells 1 and 3. *)
Lemma handle_missing_values_continues_without_label :
  ~ (forall data : frame,
       has_column "Label" data = false ->
       In (StError label_missing_msg) (snd (handle_missing_values data)) /\
       fst (handle_missing_values data) = data).
Proof.
  intros H.
  specialize (H (mkFrame 3 [("x", FloatCol W64 [Fin 1; NaN; Fin 3])]) eq_refl).
  destruct H as [_ H]. vm_compute in H. discriminate H.
Qed.

(** C1, amended: on a table without a "Label" column
    [handle_missing_values] shows exactly one error message, drops no row,
    and goes on to the replacement of infinities and the median fill: every
    numeric column comes back imputed, as on the labelled path. *)
Theorem handle_missing_values_without_label (data : frame) :
  has_column "Label" data = false ->
  snd (handle_missing_values data) = [StError label_missing_msg] /\
  nrows (fst (handle_missing_values data)) = nrows data /\
  forall name c,
    getcol name data = Some c -> is_numeric c = true ->
    exists c',
      getcol name (fst (handle_missing_values data)) = Some c' /\
      is_numeric c' = true /\
      cells c' = map (imputed (median (List.filter is_finite (cells c)))) (cells c).
Proof.
  intros H. rewrite (handle_missing_values_unlabelled data H). simpl.
  split; [reflexivity|]. split.
  - now rewrite fill_numeric_nrows.
  - intros name c Hg Hn.
    destruct (impute_column name c data Hg Hn) as (c' & H1 & H2 & H3 & _).
    exists c'. auto.
Qed.

Lemma handle_missing_values_without_label_witness :
  let data := mkFrame 3 [("x", FloatCol W64 [Fin 1; NaN; Fin 3]);
                         ("proto", ObjCol [Some "tcp"; None; Some "udp"])] in
  snd (handle_missing_values data) = [StError label_missing_msg] /\
  nrows (fst (handle_missing_values data)) = 3%nat /\
  forall name c,
    getcol name data = Some c -> is_numeric c = true ->
    exists c',
      getcol name (fst (handle_missing_values data)) = Some c' /\
      is_numeric c' = true /\
      cells c' = map (imputed (median (List.filter is_finite (cells c)))) (cells c).
Proof.
  intros data.
  exact (handle_missing_values_without_label data eq_refl).
Defined.

(** ** Median imputation *)

(** C2, as stated, fails on a numeric column without any finite cell: its
    median is NaN and the fill leaves the column missing. *)
Lemma handle_missing_values_all_missing_column :
  ~ (forall (data : frame) (name : string) (c : column),
       has_column "Label" data = true ->
       getcol name (fst (handle_missing_values data)) = Some c ->
       is_numeric c = true ->
       Forall (fun v => is_finite v = true) (cells c)).
Proof.
  intros H.
  specialize (H (mkFrame 2 [("Label", ObjCol [Some "normal"; Some "attack"]);
                            ("x", FloatCol W64 [NaN; PosInf])])
                "x" (FloatCol W64 [NaN; NaN]) eq_refl eq_refl eq_refl).
  simpl in H. inversion H as [|? ? Hx _]. discriminate Hx.
Qed.

(** C2, amended: for a table with distinct column names and a "Label"
    column, take an int64 or float64 column as it stands once the rows with
    a missing label are removed.  In the returned table every cell of that
    column that was finite is unchanged and every cell that was missing or
    infinite holds the median of the column's finite cells; when that median
    is a finite number no missing or infinite value remains in the column.
    (The median of no cell is NaN, and the mean of two middle cells whose
    sum overflows is an infinity.) *)
Theorem handle_missing_values_imputes (data : frame) (name : string) (c : column) :
  List.NoDup (colnames data) ->
  has_column "Label" data = true ->
  getcol name (dropna_subset "Label" data) = Some c ->
  is_numeric c = true ->
  is_float32 c = false ->
  exists c',
    getcol name (fst (handle_missing_values data)) = Some c' /\
    is_numeric c' = true /\
    length (cells c') = length (cells c) /\
    (forall i x, cells c !! i = Some x ->
       cells c' !! i
       = Some (if is_finite x then x else median (List.filter is_finite (cells c)))) /\
    (is_finite (median (List.filter is_finite (cells c))) = true ->
     Forall (fun v => is_finite v = true) (cells c')).
Proof.
  intros _ HL Hg Hn _. rewrite (handle_missing_values_labelled data HL). simpl.
  destruct (impute_column name c _ Hg Hn) as (c' & H1 & H2 & H3 & H4).
  exists c'. repeat split; try assumption.
  - rewrite H3. apply length_map.
  - intros i x Hx. rewrite H3.
    now rewrite (lookup_map (imputed (median (List.filter is_finite (cells c)))) _ _ _ Hx).
Qed.

Lemma handle_missing_values_imputes_witness :
  let data := mkFrame 4 [("duration", FloatCol W64 [Fin 1; NaN; PosInf; Fin 4]);
                         ("Label", ObjCol [Some "normal"; Some "attack"; Some "normal"; None])] in
  exists c',
    getcol "duration" (fst (handle_missing_values data)) = Some c' /\
    is_numeric c' = true /\
    length (cells c') = 3%nat /\
    (forall i x, [Fin 1; NaN; PosInf] !! i = Some x ->
       cells c' !! i = Some (if is_finite x then x else Fin 1)) /\
    (is_finite (Fin 1) = true ->
     Forall (fun v => is_finite v = true) (cells c')).
Proof.
  intros data.
  refine (handle_missing_values_imputes data "duration"
            (FloatCol W64 [Fin 1; NaN; PosInf]) _ eq_refl eq_refl eq_refl eq_refl).
  distinct_names.
Defined.

(** ** Column assignment *)

Lemma assoc_set_same name c cs : assoc_col name (set_assoc name c cs) = Some c.
Proof.
  induction cs as [|[n c'] cs IH]; simpl.
  - now rewrite String.eqb_refl.
  - destruct (String.eqb name n) eqn:E; simpl; rewrite E; auto.
Qed.

Lemma assoc_set_other name name' c cs :
  name <> name' -> assoc_col name' (set_assoc name c cs) = assoc_col name' cs.
Proof.
  intros Hne. induction cs as [|[n c'] cs IH]; simpl.
  - destruct (String.eqb name' name) eqn:E; [|reflexivity].
    apply String.eqb_eq in E. congruence.
  - destruct (String.eqb name n) eqn:E; simpl.
    + apply String.eqb_eq in E. subst n.
      destruct (String.eqb name' name) eqn:E'; [|reflexivity].
      apply String.eqb_eq in E'. congruence.
    + destruct (String.eqb name' n); auto.
Qed.

Lemma set_assoc_idem name c cs :
  set_assoc name c (set_assoc name c cs) = set_assoc name c cs.
Proof.
  induction cs as [|[n c'] cs IH]; simpl.
  - now rewrite String.eqb_refl.
  - destruct (String.eqb name n) eqn:E; simpl; rewrite E; [reflexivity|].
    now rewrite IH.
Qed.

Lemma getcol_set_column name c data : getcol name (set_column name c data) = Some c.
Proof. apply assoc_set_same. Qed.

Lemma getcol_set_column_other name name' c data :
  name <> name' -> getcol name' (set_column name c data) = getcol name' data.
Proof. apply assoc_set_other. Qed.

Lemma set_column_idem name c data :
  set_column name c (set_column name c data) = set_column name c data.
Proof. unfold set_column. simpl. now rewrite set_assoc_idem. Qed.

Lemma setitem_ok name c data :
  col_length c = nrows data -> setitem name c data = Ok (set_column name c data).
Proof. intros H. unfold setitem. rewrite H, Nat.eqb_refl. reflexivity. Qed.

(** ** Anomaly flagging *)

Lemma anomaly_column_length preds n :
  (length preds <= n)%nat -> length (anomaly_column preds n) = n.
Proof.
  intros H. unfold anomaly_column.
  rewrite length_app, length_map, repeat_length. lia.
Qed.

Lemma anomaly_column_scored preds n i s :
  preds !! i = Some s -> anomaly_column preds n !! i = Some (Some s).
Proof.
  intros H. unfold anomaly_column.
  rewrite lookup_app_l.
  - now apply lookup_map.
  - rewrite length_map. eapply lookup_lt_Some. eassumption.
Qed.

Lemma lookup_repeat {A} (x : A) n i : (i < n)%nat -> repeat x n !! i = Some x.
Proof.
  revert i. induction n as [|n IH]; intros i Hi; [lia|].
  destruct i as [|i]; simpl; [reflexivity|]. apply IH. lia.
Qed.

Lemma anomaly_column_unscored preds n i :
  (length preds <= i < n)%nat -> anomaly_column preds n !! i = Some None.
Proof.
  intros [H1 H2]. unfold anomaly_column.
  rewrite lookup_app_r by (rewrite length_map; lia).
  rewrite length_map. apply lookup_repeat. lia.
Qed.

Lemma detect_anomalies_run {R : Type} (det : R -> Z) (X_test : list R)
    (l : nat) (h : gmap nat frame) (d : frame) :
  h !! l = Some d ->
  (length X_test <= nrows d)%nat ->
  detect_anomalies det X_test l h
  = (Ok tt, <[l := flagged_table det X_test d]> h, flagged_log det X_test d).
Proof.
  intros Hl Hlen.
  unfold detect_anomalies, prog_bind, deref, lift_result, assign, say, lift_ui, emit.
  rewrite Hl.
  rewrite setitem_ok
    by (simpl; apply anomaly_column_length; now rewrite !length_map).
  rewrite lookup_insert_eq.
  unfold getitem. rewrite getcol_set_column.
  unfold flagged_log, flagged_view, flagged_table.
  destruct (negb (frame_empty _)); reflexivity.
Qed.

(** C3: when the button branch runs on a combined table at least as long as
    the test partition, the table written back holds an "Anomaly Prediction"
    column with one entry per row: "Anomaly" or "Normal" at the positions of
    the test partition, according to whether the detector answered -1, and
    null at every later position. *)
Theorem anomaly_prediction_column {R : Type} (det : R -> Z) (X_test : list R)
    (l : nat) (h : gmap nat frame) (d : frame) :
  h !! l = Some d ->
  (length X_test <= nrows d)%nat ->
  exists d' log col,
    detect_anomalies det X_test l h = (Ok tt, <[l := d']> h, log) /\
    nrows d' = nrows d /\
    getcol "Anomaly Prediction" d' = Some (ObjCol col) /\
    length col = nrows d /\
    (forall i x, X_test !! i = Some x ->
       col !! i = Some (Some (if Z.eqb (det x) (-1) then "Anomaly" else "Normal"))) /\
    (forall i, (length X_test <= i < nrows d)%nat -> col !! i = Some None).
Proof.
  intros Hl Hlen.
  exists (flagged_table det X_test d), (flagged_log det X_test d),
         (anomaly_column (map verdict (map det X_test)) (nrows d)).
  split; [now apply detect_anomalies_run|].
  split; [reflexivity|].
  split; [apply getcol_set_column|].
  split; [apply anomaly_column_length; now rewrite !length_map|].
  split.
  - intros i x Hx. apply anomaly_column_scored.
    rewrite map_map. now apply (lookup_map (fun r => verdict (det r))).
  - intros i Hi. apply anomaly_column_unscored. now rewrite !length_map.
Qed.

Lemma anomaly_prediction_column_witness :
  let det := fun x : Z => if Z.ltb x 10 then 1%Z else (-1)%Z in
  let d := mkFrame 4 [("bytes", IntCol [3; 50; 7; 9]%Z)] in
  let h : gmap nat frame := {[ 0%nat := d ]} in
  exists d' log col,
    detect_anomalies det [3; 50]%Z 0 h = (Ok tt, <[0%nat := d']> h, log) /\
    nrows d' = 4%nat /\
    getcol "Anomaly Prediction" d' = Some (ObjCol col) /\
    length col = 4%nat /\
    (forall i x, [3; 50]%Z !! i = Some x ->
       col !! i = Some (Some (if Z.eqb (det x) (-1) then "Anomaly" else "Normal"))) /\
    (forall i, (2 <= i < 4)%nat -> col !! i = Some None).
Proof.
  intros det d h.
  apply (anomaly_prediction_column det [3; 50]%Z 0 h d).
  - reflexivity.
  - simpl. lia.
Defined.

(** C8: flagging is idempotent.  For a fixed detector and test partition,
    a second run of the scoring and flagging step on the table the first
    run left behind ends with the same table and shows the same log, hence
    the same view of flagged rows. *)
Theorem anomaly_flagging_idempotent {R : Type} (det : R -> Z) (X_test : list R)
    (l : nat) (h : gmap nat frame) (d : frame) :
  h !! l = Some d ->
  (length X_test <= nrows d)%nat ->
  exists h1 view rest,
    detect_anomalies det X_test l h
    = (Ok tt, h1, StSubheader "Suspicious Activities Detected" :: StDataframe view :: rest) /\
    detect_anomalies det X_test l h1
    = (Ok tt, h1, StSubheader "Suspicious Activities Detected" :: StDataframe view :: rest).
Proof.
  intros Hl Hlen.
  exists (<[l := flagged_table det X_test d]> h), (flagged_view det X_test d),
         [if negb (frame_empty (flagged_view det X_test d))
          then StError alert_msg else StSuccess clear_msg].
  split; [now apply detect_anomalies_run|].
  rewrite (detect_anomalies_run det X_test l _ (flagged_table det X_test d))
    by (try apply lookup_insert_eq; assumption).
  rewrite insert_insert_eq.
  assert (Ht : flagged_table det X_test (flagged_table det X_test d)
               = flagged_table det X_test d)
    by (unfold flagged_table at 1 3; simpl; apply set_column_idem).
  assert (Hv : flagged_view det X_test (flagged_table det X_test d)
               = flagged_view det X_test d)
    by (unfold flagged_view; rewrite Ht; reflexivity).
  unfold flagged_log. rewrite Ht, Hv. reflexivity.
Qed.

Lemma anomaly_flagging_idempotent_witness :
  let det := fun x : Z => if Z.ltb x 10 then 1%Z else (-1)%Z in
  let d := mkFrame 4 [("bytes", IntCol [3; 50; 7; 9]%Z)] in
  let h : gmap nat frame := {[ 0%nat := d ]} in
  exists h1 view rest,
    detect_anomalies det [3; 50]%Z 0 h
    = (Ok tt, h1, StSubheader "Suspicious Activities Detected" :: StDataframe view :: rest) /\
    detect_anomalies det [3; 50]%Z 0 h1
    = (Ok tt, h1, StSubheader "Suspicious Activities Detected" :: StDataframe view :: rest).
Proof.
  intros det d h.
  apply (anomaly_flagging_idempotent det [3; 50]%Z 0 h d).
  - reflexivity.
  - simpl. lia.
Defined.

(** ** Evaluation metrics *)

Lemma evaluate_model_run {R : Type} (model : R -> Z) (X_test : list R)
    (y_test : list Z) (h : gmap nat frame) :
  length X_test = length y_test ->
  exists accuracy cm,
    accuracy_score y_test (map model X_test) = Ok accuracy /\
    confusion_matrix y_test (map model X_test) = Ok cm /\
    evaluate_model model X_test y_test h
    = (Ok tt, h,
       [StWrite "### Model Performance"; StWriteAccuracy accuracy;
        StTextReport y_test (map model X_test);
        StWrite "#### Confusion Matrix"; StWriteMatrix cm]).
Proof.
  intros Hlen.
  assert (E : Nat.eqb (length y_test) (length (map model X_test)) = true)
    by (rewrite length_map, Hlen; apply Nat.eqb_refl).
  unfold evaluate_model, accuracy_score, confusion_matrix.
  rewrite E. eexists. eexists.
  split; [reflexivity|]. split; [reflexivity|].
  reflexivity.
Qed.

Lemma score_sum {R : Type} (model : R -> Z) (X_test : list R) (y_test : list Z) :
  fold_right Z.add 0%Z
    (map b2z (map (fun tp => Z.eqb (fst tp) (snd tp)) (combine y_test (map model X_test))))
  = Z.of_nat (correct_rows model X_test y_test).
Proof.
  unfold correct_rows. revert y_test.
  induction X_test as [|x X IH]; intros [|y ys]; try reflexivity.
  simpl. rewrite IH. rewrite (Z.eqb_sym y (model x)).
  destruct (Z.eqb (model x) y); simpl length; unfold b2z; lia.
Qed.

Lemma length_combine_same {A B} (xs : list A) (ys : list B) :
  length xs = length ys -> length (combine xs ys) = length xs.
Proof. intros H. rewrite length_combine. lia. Qed.

(** C4: on a non-empty test partition with one true label per row,
    [evaluate_model] shows exactly one accuracy, and the number it hands to
    the display is the count of test rows whose predicted label equals the
    true label divided by the count of test rows. *)
Theorem evaluate_model_accuracy {R : Type} (model : R -> Z) (X_test : list R)
    (y_test : list Z) (h : gmap nat frame) :
  length X_test = length y_test ->
  X_test <> [] ->
  exists log,
    evaluate_model model X_test y_test h = (Ok tt, h, log) /\
    forall a, In (StWriteAccuracy a) log <->
              a = Fin (inject_Z (Z.of_nat (correct_rows model X_test y_test))
                       / inject_Z (Z.of_nat (length y_test))).
Proof.
  intros Hlen Hne.
  destruct (evaluate_model_run model X_test y_test h Hlen) as (acc & cm & Ha & _ & Hrun).
  eexists. split; [exact Hrun|].
  assert (Hacc : acc = Fin (inject_Z (Z.of_nat (correct_rows model X_test y_test))
                            / inject_Z (Z.of_nat (length y_test)))).
  { unfold accuracy_score in Ha.
    rewrite length_map, Hlen, Nat.eqb_refl in Ha.
    injection Ha as <-. unfold average.
    destruct (map _ (combine y_test (map model X_test))) as [|b bs] eqn:E.
    - apply (f_equal (@length bool)) in E.
      rewrite length_map, length_combine_same in E by (now rewrite length_map).
      destruct X_test; [congruence|]. simpl in Hlen. rewrite <- Hlen in E. discriminate E.
    - rewrite <- E, score_sum, length_map, length_combine_same
        by (now rewrite length_map).
      reflexivity. }
  intros a. simpl. split.
  - intros [H|[H|[H|[H|[H|[]]]]]]; try discriminate H. congruence.
  - intros ->. right. left. now rewrite Hacc.
Qed.

Lemma evaluate_model_accuracy_witness :
  let model := fun x : Z => if Z.ltb x 10 then 0%Z else 1%Z in
  exists log,
    evaluate_model model [3; 50; 7]%Z [0; 1; 1]%Z (∅ : gmap nat frame)
    = (Ok tt, ∅, log) /\
    forall a, In (StWriteAccuracy a) log <->
              a = Fin (inject_Z 2 / inject_Z 3).
Proof.
  intros model.
  apply (evaluate_model_accuracy model [3; 50; 7]%Z [0; 1; 1]%Z ∅).
  - reflexivity.
  - discriminate.
Defined.

(** ** The sorted distinct labels *)

Lemma insert_unique_In (x a : Z) (l : list Z) :
  In x (insert_unique Z.leb a l) <-> x = a \/ In x l.
Proof.
  induction l as [|y l IH]; simpl.
  - intuition.
  - destruct (Z.leb a y) eqn:E1.
    + destruct (Z.leb y a) eqn:E2; simpl.
      * apply Z.leb_le in E1, E2. assert (a = y) by lia. subst. intuition.
      * intuition.
    + simpl. rewrite IH. intuition.
Qed.

Lemma unique_In (x : Z) (l : list Z) : In x (unique Z.leb l) <-> In x l.
Proof.
  induction l as [|a l IH]; simpl; [reflexivity|].
  rewrite insert_unique_In, IH. intuition.
Qed.

Lemma insert_unique_sorted (a : Z) (l : list Z) :
  StronglySorted Z.lt l -> StronglySorted Z.lt (insert_unique Z.leb a l).
Proof.
  induction 1 as [|y l Hs IH Hy]; simpl.
  - repeat constructor.
  - destruct (Z.leb a y) eqn:E1.
    + destruct (Z.leb y a) eqn:E2.
      * now constructor.
      * apply Z.leb_le in E1. apply Z.leb_gt in E2.
        constructor; [now constructor|].
        constructor; [lia|].
        rewrite List.Forall_forall in Hy |- *. intros z Hz. specialize (Hy z Hz). lia.
    + apply Z.leb_gt in E1. constructor; [assumption|].
      rewrite List.Forall_forall in Hy |- *. intros z Hz.
      apply insert_unique_In in Hz as [->|Hz]; [lia|auto].
Qed.

Lemma unique_sorted (l : list Z) : StronglySorted Z.lt (unique Z.leb l).
Proof.
  induction l as [|a l IH]; simpl; [constructor|].
  now apply insert_unique_sorted.
Qed.

Lemma sorted_NoDup (l : list Z) : StronglySorted Z.lt l -> List.NoDup l.
Proof.
  induction 1 as [|y l Hs IH Hy]; constructor; [|assumption].
  intros Hin. rewrite List.Forall_forall in Hy. specialize (Hy y Hin). lia.
Qed.

Lemma matrix_labels_NoDup y_true y_pred : List.NoDup (matrix_labels y_true y_pred).
Proof. apply sorted_NoDup, unique_sorted. Qed.

Lemma matrix_labels_In a y_true y_pred :
  In a (matrix_labels y_true y_pred) <-> In a y_true \/ In a y_pred.
Proof. unfold matrix_labels. rewrite unique_In. apply in_app_iff. Qed.

(** ** Row sums and diagonal of the confusion matrix *)

Lemma count_pair_cons a b tp pairs :
  count_pair a b (tp :: pairs) = (hit a b tp + count_pair a b pairs)%nat.
Proof.
  unfold count_pair, hit. simpl.
  destruct (Z.eqb (fst tp) a && Z.eqb (snd tp) b); reflexivity.
Qed.

Lemma list_sum_map_add {A} (f g : A -> nat) (l : list A) :
  list_sum (map (fun x => (f x + g x)%nat) l)
  = (list_sum (map f l) + list_sum (map g l))%nat.
Proof. induction l as [|x l IH]; simpl; [reflexivity|]. rewrite IH. lia. Qed.

Lemma list_sum_map_zero {A} (f : A -> nat) (l : list A) :
  (forall x, In x l -> f x = 0%nat) -> list_sum (map f l) = 0%nat.
Proof.
  induction l as [|x l IH]; intros H; simpl; [reflexivity|].
  rewrite (H x), IH; auto using in_eq, in_cons.
Qed.

(** One sample falls in exactly one cell of its row. *)
Lemma hit_row_sum a tp labels :
  List.NoDup labels -> In (snd tp) labels ->
  list_sum (map (fun b => hit a b tp) labels)
  = if Z.eqb (fst tp) a then 1%nat else 0%nat.
Proof.
  induction 1 as [|b labels Hnotin Hnd IH]; intros Hin; [destruct Hin|].
  simpl. destruct Hin as [->|Hin].
  - rewrite list_sum_map_zero.
    + unfold hit. rewrite Z.eqb_refl. destruct (Z.eqb (fst tp) a); reflexivity.
    + intros b Hb. unfold hit.
      destruct (Z.eqb (snd tp) b) eqn:E.
      * apply Z.eqb_eq in E. subst b. contradiction.
      * now rewrite andb_false_r.
  - rewrite IH by assumption. unfold hit at 1.
    destruct (Z.eqb (snd tp) b) eqn:E.
    + apply Z.eqb_eq in E. subst b. contradiction.
    + now rewrite andb_false_r.
Qed.

Lemma row_sum_pairs a labels pairs :
  List.NoDup labels ->
  (forall tp, In tp pairs -> In (snd tp) labels) ->
  list_sum (map (fun b => count_pair a b pairs) labels)
  = length (List.filter (fun tp => Z.eqb (fst tp) a) pairs).
Proof.
  intros Hnd. induction pairs as [|tp pairs IH]; intros Hin.
  - apply list_sum_map_zero. reflexivity.
  - rewrite (map_ext _ (fun b => (hit a b tp + count_pair a b pairs)%nat))
      by (intros b; apply count_pair_cons).
    rewrite list_sum_map_add, hit_row_sum, IH; auto using in_eq, in_cons.
    simpl. destruct (Z.eqb (fst tp) a); reflexivity.
Qed.

Lemma filter_fst_combine a (ys ps : list Z) :
  length ys = length ps ->
  length (List.filter (fun tp => Z.eqb (fst tp) a) (combine ys ps)) = rows_of_class a ys.
Proof.
  unfold rows_of_class. revert ps.
  induction ys as [|y ys IH]; intros [|p ps] Hlen; try discriminate; [reflexivity|].
  simpl. rewrite (Z.eqb_sym y a).
  destruct (Z.eqb a y); simpl; rewrite IH by (simpl in Hlen; lia); reflexivity.
Qed.

Lemma count_pair_diagonal {R : Type} (model : R -> Z) a (X_test : list R) (y_test : list Z) :
  count_pair a a (combine y_test (map model X_test))
  = correct_rows_of_class model a X_test y_test.
Proof.
  unfold count_pair, correct_rows_of_class. revert y_test.
  induction X_test as [|x X IH]; intros [|y ys]; try reflexivity.
  simpl. destruct (Z.eqb y a && Z.eqb (model x) a); simpl; now rewrite IH.
Qed.

Lemma in_combine_snd {A B} (xs : list A) (ys : list B) (p : A * B) :
  In p (combine xs ys) -> In (snd p) ys.
Proof. destruct p as [x y]. apply in_combine_r. Qed.

(** C5: the matrix [evaluate_model] shows has one row and one column per
    label that occurs among the true or predicted labels, without
    repetition; the sum of a row is the number of test rows whose true label
    is the row's class, and its diagonal entry is the number of test rows of
    that class predicted correctly. *)
Theorem evaluate_model_confusion_matrix {R : Type} (model : R -> Z)
    (X_test : list R) (y_test : list Z) (h : gmap nat frame) :
  length X_test = length y_test ->
  exists log cm,
    evaluate_model model X_test y_test h = (Ok tt, h, log) /\
    (forall m, In (StWriteMatrix m) log <-> m = cm) /\
    let labels := matrix_labels y_test (map model X_test) in
    List.NoDup labels /\
    (forall a, In a labels <-> In a y_test \/ In a (map model X_test)) /\
    length cm = length labels /\
    forall i a, labels !! i = Some a ->
      exists cells_i,
        cm !! i = Some cells_i /\
        length cells_i = length labels /\
        list_sum cells_i = rows_of_class a y_test /\
        cells_i !! i = Some (correct_rows_of_class model a X_test y_test).
Proof.
  intros Hlen.
  destruct (evaluate_model_run model X_test y_test h Hlen) as (acc & cm & _ & Hcm & Hrun).
  eexists. exists cm. split; [exact Hrun|]. split.
  { intros m. simpl. split.
    - intros [H|[H|[H|[H|[H|[]]]]]]; try discriminate H. congruence.
    - intros ->. do 4 right. now left. }
  unfold confusion_matrix in Hcm.
  rewrite length_map, Hlen, Nat.eqb_refl in Hcm. injection Hcm as <-.
  split; [apply matrix_labels_NoDup|].
  split; [intros a; apply matrix_labels_In|].
  split; [apply length_map|].
  intros i a Hi.
  eexists. split; [apply (lookup_map _ _ _ _ Hi)|].
  split; [apply length_map|]. split.
  - rewrite row_sum_pairs.
    + apply filter_fst_combine. now rewrite length_map.
    + apply matrix_labels_NoDup.
    + intros tp Htp. apply matrix_labels_In. right.
      eapply in_combine_snd. eassumption.
  - rewrite (lookup_map _ _ _ _ Hi). f_equal. apply count_pair_diagonal.
Qed.

Lemma evaluate_model_confusion_matrix_witness :
  let model := fun x : Z => if Z.ltb x 10 then 0%Z else 1%Z in
  exists log cm,
    evaluate_model model [3; 50; 7]%Z [0; 1; 1]%Z (∅ : gmap nat frame)
    = (Ok tt, ∅, log) /\
    (forall m, In (StWriteMatrix m) log <-> m = cm) /\
    let labels := [0; 1]%Z in
    List.NoDup labels /\
    (forall a, In a labels <-> In a [0; 1; 1]%Z \/ In a [0; 1; 0]%Z) /\
    length cm = 2%nat /\
    forall i a, labels !! i = Some a ->
      exists cells_i,
        cm !! i = Some cells_i /\
        length cells_i = 2%nat /\
        list_sum cells_i = rows_of_class a [0; 1; 1]%Z /\
        cells_i !! i = Some (correct_rows_of_class model a [3; 50; 7]%Z [0; 1; 1]%Z).
Proof.
  intros model.
  exact (evaluate_model_confusion_matrix model [3; 50; 7]%Z [0; 1; 1]%Z ∅ eq_refl).
Defined.

(** ** The remote advisory call *)

Section Advisory.
Variable post : request -> result response.
Variable input_data : string.
Variable reply : response.
Variable members : list (string * json).

Hypothesis post_ok : forall r, post r = Ok reply.
Hypothesis reply_body : body reply = Some (JObject members).

Lemma predict_with_groq_choices :
  predict_with_groq post input_data
  = (choices <- py_get "choices" (JArray [JObject []]) (JObject members) ;;
     first <- py_first choices ;;
     py_get "text" fallback first)%result.
Proof.
  unfold predict_with_groq. rewrite post_ok. simpl.
  unfold response_json. rewrite reply_body. reflexivity.
Qed.

(** The first completion carries a text: the text is returned. *)
Lemma predict_with_groq_first_text fields rest text :
  dict_lookup "choices" members = Some (JArray (JObject fields :: rest)) ->
  dict_lookup "text" fields = Some text ->
  predict_with_groq post input_data = Ok text.
Proof.
  intros Hc Ht. rewrite predict_with_groq_choices. simpl.
  rewrite Hc. simpl. now rewrite Ht.
Qed.

(** The reply has no list of completions: the placeholder is returned. *)
Lemma predict_with_groq_choices_absent :
  dict_lookup "choices" members = None ->
  predict_with_groq post input_data = Ok fallback.
Proof.
  intros Hc. rewrite predict_with_groq_choices. simpl.
  rewrite Hc. reflexivity.
Qed.

(** The list of completions is there and empty: indexing it raises. *)
Lemma predict_with_groq_choices_empty :
  dict_lookup "choices" members = Some (JArray []) ->
  predict_with_groq post input_data = Raise IndexError.
Proof.
  intros Hc. rewrite predict_with_groq_choices. simpl.
  rewrite Hc. reflexivity.
Qed.
End Advisory.

(** C7 fails on the code: for the reply [{"choices": []}] the call does not
    return the placeholder text, it raises [IndexError], whereas a reply
    without the key [choices] does get the placeholder. *)
Theorem predict_with_groq_empty_completions :
  predict_with_groq
    (fun _ => Ok (mkResponse 200 (Some (JObject [("choices", JArray [])]))))
    "duration=0, protocol=tcp"
  = Raise IndexError
  /\
  predict_with_groq
    (fun _ => Ok (mkResponse 200 (Some (JObject []))))
    "duration=0, protocol=tcp"
  = Ok (JString "No response").
Proof. split; reflexivity. Qed.

(** ** Chunk normalisation *)

Lemma has_column_true name data :
  has_column name data = true <-> In name (colnames data).
Proof.
  unfold has_column. rewrite existsb_exists. split.
  - intros (n & Hin & E). apply String.eqb_eq in E. now subst.
  - intros Hin. exists name. split; [assumption|apply String.eqb_refl].
Qed.

Lemma has_column_false name data :
  ~ In name (colnames data) -> has_column name data = false.
Proof.
  intros H. destruct (has_column name data) eqn:E; [|reflexivity].
  apply has_column_true in E. contradiction.
Qed.

Lemma colnames_strip data : colnames (strip_columns data) = map strip (colnames data).
Proof. unfold colnames, strip_columns. simpl. rewrite !map_map. reflexivity. Qed.

Lemma names_map_snd (g : column -> column) cs :
  map fst (map (fun nc : string * column => (fst nc, g (snd nc))) cs) = map fst cs.
Proof. rewrite map_map. reflexivity. Qed.

Lemma names_update_assoc f name cs : map fst (update_assoc f name cs) = map fst cs.
Proof.
  induction cs as [|[n c] cs IH]; simpl; [reflexivity|].
  destruct (String.eqb name n); simpl; [reflexivity|]. now rewrite IH.
Qed.

Lemma names_set_assoc name c cs :
  In name (map fst cs) -> map fst (set_assoc name c cs) = map fst cs.
Proof.
  induction cs as [|[n c'] cs IH]; simpl; [intros []|].
  intros Hin. destruct (String.eqb name n) eqn:E; simpl; [reflexivity|].
  rewrite IH; [reflexivity|].
  destruct Hin as [->|Hin]; [|assumption].
  rewrite String.eqb_refl in E. discriminate E.
Qed.

Lemma colnames_set_column name c data :
  In name (colnames data) -> colnames (set_column name c data) = colnames data.
Proof. apply names_set_assoc. Qed.

Lemma colnames_fold_update f names data :
  colnames (fold_left (fun d col => update_col f col d) names data) = colnames data.
Proof.
  revert data. induction names as [|a names IH]; intros data; simpl; [reflexivity|].
  rewrite IH. apply names_update_assoc.
Qed.

(** A column that [f] leaves alone survives the loop. *)
Lemma fold_update_fixed f names data name c :
  f c = c -> getcol name data = Some c ->
  getcol name (fold_left (fun d col => update_col f col d) names data) = Some c.
Proof.
  intros Hf. revert data. induction names as [|a names IH]; intros data Hg; simpl;
    [assumption|].
  apply IH. destruct (string_dec a name) as [->|Hne].
  - rewrite getcol_update_same, Hg. simpl. now rewrite Hf.
  - now rewrite getcol_update_other.
Qed.

Lemma astype_category_idem c : astype_category (astype_category c) = astype_category c.
Proof. now destruct c. Qed.

Lemma in_select_object name c data :
  getcol name data = Some c -> is_object c = true -> In name (select_object data).
Proof.
  intros Hg Hn. unfold select_object.
  apply assoc_some_in in Hg.
  apply (in_map fst) with (x := (name, c)).
  apply filter_In. split; assumption.
Qed.

Lemma keep_all {A} (x : A) n : keep (repeat true n) (repeat x n) = repeat x n.
Proof. induction n as [|n IH]; simpl; [reflexivity|]. now rewrite IH. Qed.

Lemma count_true_all n : count_true (repeat true n) = n.
Proof.
  unfold count_true. induction n as [|n IH]; simpl; [reflexivity|]. now rewrite IH.
Qed.

Lemma map_repeat {A B} (f : A -> B) (x : A) n : map f (repeat x n) = repeat (f x) n.
Proof. induction n as [|n IH]; simpl; [reflexivity|]. now rewrite IH. Qed.

Lemma optimize_memory_usage_labelled L data :
  has_column "Label" data = true ->
  optimize_memory_usage L data
  = (let data1 := fill_numeric (replace_inf (dropna_subset "Label" data)) in
     let data2 := fold_left (fun d col => update_col (downcast_float L) col d)
                            (select_numeric data1) data1 in
     fold_left (fun d col => update_col astype_category col d)
               (select_object data2) data2, []).
Proof.
  intros H. unfold optimize_memory_usage.
  rewrite (handle_missing_values_labelled data H). reflexivity.
Qed.

(** A table whose "Label" column is the text "normal" in every row, through
    [optimize_memory_usage]. *)
Lemma optimize_constant_label L data :
  getcol "Label" data = Some (ObjCol (repeat (Some "normal") (nrows data))) ->
  let out := fst (optimize_memory_usage L data) in
  snd (optimize_memory_usage L data) = [] /\
  getcol "Label" out = Some (CatCol (repeat (Some "normal") (nrows data))) /\
  nrows out = nrows data /\
  colnames out = colnames data.
Proof.
  intros Hg.
  assert (HL : has_column "Label" data = true).
  { apply has_column_true. apply assoc_some_in in Hg.
    now apply (in_map fst) in Hg. }
  rewrite (optimize_memory_usage_labelled L data HL). simpl.
  assert (Hdrop : dropna_subset "Label" data
                  = select_rows (repeat true (nrows data)) data).
  { unfold dropna_subset. rewrite Hg. simpl. now rewrite map_repeat. }
  rewrite Hdrop.
  set (d0 := select_rows (repeat true (nrows data)) data).
  assert (H0 : getcol "Label" d0 = Some (ObjCol (repeat (Some "normal") (nrows data)))).
  { unfold d0, select_rows, getcol. simpl. rewrite assoc_map_snd.
    fold (getcol "Label" data). rewrite Hg. simpl. now rewrite keep_all. }
  assert (H1 : getcol "Label" (fill_numeric (replace_inf d0))
               = Some (ObjCol (repeat (Some "normal") (nrows data)))).
  { unfold fill_numeric. apply fold_update_fixed; [reflexivity|].
    rewrite getcol_replace_inf, H0. reflexivity. }
  set (d1 := fill_numeric (replace_inf d0)) in *.
  set (d2 := fold_left (fun d col => update_col (downcast_float L) col d)
                       (select_numeric d1) d1).
  assert (H2 : getcol "Label" d2 = Some (ObjCol (repeat (Some "normal") (nrows data))))
    by (apply fold_update_fixed; [reflexivity|assumption]).
  split; [reflexivity|]. split; [|split].
  - rewrite (fold_update_in astype_category astype_category_idem).
    + rewrite H2. reflexivity.
    + eapply in_select_object; [exact H2|reflexivity].
  - rewrite fold_update_nrows. unfold d2. rewrite fold_update_nrows.
    unfold d1. rewrite fill_numeric_nrows. simpl. apply count_true_all.
  - rewrite colnames_fold_update. unfold d2. rewrite colnames_fold_update.
    unfold d1, fill_numeric. rewrite colnames_fold_update.
    unfold colnames, replace_inf, d0, select_rows. simpl.
    now rewrite !names_map_snd.
Qed.

Lemma normalize_label_overwrites chunk :
  In "Label" (map strip (colnames chunk)) ->
  ~ In "label" (map strip (colnames chunk)) ->
  ~ In "Class" (map strip (colnames chunk)) ->
  normalize_label chunk = setitem_scalar "Label" "normal" (strip_columns chunk).
Proof.
  intros _ Hl Hc. unfold normalize_label. cbv zeta.
  rewrite (has_column_false "label") by (now rewrite colnames_strip).
  rewrite (has_column_false "Class") by (now rewrite colnames_strip).
  reflexivity.
Qed.

Lemma ui_map_In {A B} (f : A -> ui B) (xs : list A) (x : A) :
  In x xs -> In (fst (f x)) (fst (ui_map f xs)).
Proof.
  induction xs as [|y xs IH]; intros Hin; [destruct Hin|].
  simpl. unfold ui_bind.
  destruct (f y) as [b l1] eqn:Ey. destruct (ui_map f xs) as [bs l2] eqn:Em.
  simpl in *. destruct Hin as [->|Hin].
  - left. now rewrite Ey.
  - right. auto.
Qed.

(** C9: a chunk whose column names are distinct once trimmed (of the white
    space [str.strip] removes, Unicode white space included), with "Label"
    among them but neither "label" nor "Class", takes the last branch of the
    renaming: the chunk appended to the combined data keeps its rows and its
    column names, and its "Label" column is the category "normal" in every
    row, whatever the labels of the upload were. *)
Theorem load_overwrites_existing_label (L : library)
    (uploaded_files : list (list frame)) (chunk : frame) :
  In chunk (concat uploaded_files) ->
  List.NoDup (map strip (colnames chunk)) ->
  In "Label" (map strip (colnames chunk)) ->
  ~ In "label" (map strip (colnames chunk)) ->
  ~ In "Class" (map strip (colnames chunk)) ->
  exists out,
    In out (fst (load_chunks L uploaded_files)) /\
    out = fst (process_chunk L chunk) /\
    getcol "Label" out = Some (CatCol (repeat (Some "normal") (nrows chunk))) /\
    nrows out = nrows chunk /\
    colnames out = map strip (colnames chunk).
Proof.
  intros Hin _ HL Hl Hc.
  exists (fst (process_chunk L chunk)).
  split; [now apply ui_map_In|]. split; [reflexivity|].
  unfold process_chunk. rewrite (normalize_label_overwrites chunk HL Hl Hc).
  set (d := setitem_scalar "Label" "normal" (strip_columns chunk)).
  assert (Hn : nrows d = nrows chunk) by reflexivity.
  assert (Hg : getcol "Label" d = Some (ObjCol (repeat (Some "normal") (nrows d))))
    by apply getcol_set_column.
  destruct (optimize_constant_label L d Hg) as (_ & H1 & H2 & H3).
  rewrite Hn in H1, H2. split; [exact H1|]. split; [exact H2|].
  rewrite H3. unfold d, setitem_scalar.
  rewrite colnames_set_column; rewrite colnames_strip; [reflexivity|assumption].
Qed.

(** ** In-place preprocessing *)

Lemma encode_length {A} (leb : A -> A -> bool) xs : length (encode leb xs) = length xs.
Proof. unfold encode. apply length_map. Qed.

Lemma fit_transform_length y : length (fit_transform y) = col_length y.
Proof. destruct y; simpl; apply encode_length. Qed.

Lemma assoc_filter_kept (keepb : string -> bool) name cs :
  keepb name = true ->
  assoc_col name (List.filter (fun nc => keepb (fst nc)) cs) = assoc_col name cs.
Proof.
  intros Hk. induction cs as [|[n c] cs IH]; simpl; [reflexivity|].
  destruct (keepb n) eqn:E; simpl.
  - destruct (String.eqb name n); auto.
  - destruct (String.eqb name n) eqn:E'; [|assumption].
    apply String.eqb_eq in E'. congruence.
Qed.

Lemma assoc_filter_dropped (keepb : string -> bool) name cs :
  keepb name = false ->
  assoc_col name (List.filter (fun nc => keepb (fst nc)) cs) = None.
Proof.
  intros Hk. induction cs as [|[n c] cs IH]; simpl; [reflexivity|].
  destruct (keepb n) eqn:E; simpl; [|assumption].
  destruct (String.eqb name n) eqn:E'; [|assumption].
  apply String.eqb_eq in E'. congruence.
Qed.

Lemma existsb_eqb_sym name names :
  existsb (String.eqb name) names = existsb (fun n => String.eqb n name) names.
Proof.
  induction names as [|n names IH]; simpl; [reflexivity|].
  now rewrite IH, String.eqb_sym.
Qed.

Lemma getcol_drop_kept names name data :
  ~ In name names -> getcol name (drop_columns names data) = getcol name data.
Proof.
  intros Hn. unfold getcol, drop_columns. simpl.
  apply (assoc_filter_kept (fun n => negb (existsb (String.eqb n) names))).
  apply negb_true_iff. destruct (existsb (String.eqb name) names) eqn:E; [|reflexivity].
  apply existsb_exists in E as (n & Hin & E). apply String.eqb_eq in E. now subst.
Qed.

Lemma getcol_drop_dropped names name data :
  In name names -> getcol name (drop_columns names data) = None.
Proof.
  intros Hn. unfold getcol, drop_columns. simpl.
  apply (assoc_filter_dropped (fun n => negb (existsb (String.eqb n) names))).
  apply negb_false_iff. apply existsb_exists.
  exists name. split; [assumption|apply String.eqb_refl].
Qed.

Lemma prog_bind_ok {A B} (m : prog A) (k : A -> prog B) h a h1 l1 r h2 l2 :
  m h = (Ok a, h1, l1) -> k a h1 = (r, h2, l2) ->
  prog_bind m k h = (r, h2, l1 ++ l2).
Proof. intros Hm Hk. unfold prog_bind. now rewrite Hm, Hk. Qed.

Lemma prog_bind_raise {A B} (m : prog A) (k : A -> prog B) h e h1 l1 :
  m h = (Raise e, h1, l1) -> prog_bind m k h = (Raise e, h1, l1).
Proof. intros Hm. unfold prog_bind. now rewrite Hm. Qed.

Lemma deref_ok l (h : gmap nat frame) d : h !! l = Some d -> deref l h = (Ok d, h, []).
Proof. intros H. unfold deref. now rewrite H. Qed.

(** What a call of [preprocess_data] does: whether the feature preparation
    returns or raises, the table behind the reference has been rewritten. *)
Lemma preprocess_data_run (L : library) (l : nat) (h : gmap nat frame)
    (d : frame) (y : column) :
  h !! l = Some d ->
  getcol "Label" d = Some y ->
  col_length y = nrows d ->
  preprocess_data L l h
  = (match features_and_split L (preprocessed d y) with
     | Ok r => Ok (fst r, snd r, classes_of y)
     | Raise e => Raise e
     end,
     <[l := preprocessed d y]> h,
     [class_distribution y]).
Proof.
  intros Hl Hy Hlen.
  unfold preprocess_data, prog_bind, deref, lift_result, assign, say, lift_ui,
    emit, prog_ret, getitem.
  rewrite Hl, Hy.
  rewrite setitem_ok by (simpl; now rewrite fit_transform_length).
  rewrite lookup_insert_eq, insert_insert_eq, lookup_insert_eq.
  fold (preprocessed d y).
  destruct (features_and_split L (preprocessed d y)) as [r|e]; reflexivity.
Qed.

Lemma preprocessed_columns (d : frame) (y : column) :
  nrows (preprocessed d y) = nrows d /\
  getcol "Label" (preprocessed d y) = Some (IntCol (fit_transform y)) /\
  getcol "Timestamp" (preprocessed d y) = None /\
  getcol "ID" (preprocessed d y) = None /\
  forall name,
    name <> "Label" -> name <> "Timestamp" -> name <> "ID" ->
    getcol name (preprocessed d y) = getcol name d.
Proof.
  unfold preprocessed. split; [reflexivity|]. split; [|split; [|split]].
  - rewrite getcol_drop_kept by (simpl; intros [H|[H|[]]]; discriminate H).
    apply getcol_set_column.
  - apply getcol_drop_dropped. simpl. auto.
  - apply getcol_drop_dropped. simpl. auto.
  - intros name H1 H2 H3.
    rewrite getcol_drop_kept by (simpl; intros [H|[H|[]]]; congruence).
    apply getcol_set_column_other. congruence.
Qed.

(** A run of the script with the button pressed: the table behind
    [combined_data] ends as the preprocessed table with the verdict column,
    and the view shown is cut from it. *)
Lemma main_shows_flagged_view (L : library) (uploaded_files : list (list frame))
    (n_estimators : nat) (h : gmap nat frame) (table : frame) (log0 : list ui_event)
    (y : column) (parts : split (row L)) (sc : scaler L) :
  uploaded_files <> [] ->
  load_and_combine_data L uploaded_files = (Ok table, log0) ->
  getcol "Label" table = Some y ->
  col_length y = nrows table ->
  features_and_split L (preprocessed table y) = Ok (parts, sc) ->
  length (X_test parts) = length (y_test parts) ->
  (length (X_test parts) <= nrows table)%nat ->
  let detector := train_anomaly_detector L (X_train parts) in
  exists h' log,
    main L uploaded_files n_estimators true h = (Ok tt, h', log) /\
    h' !! fresh (dom h)
    = Some (flagged_table detector (X_test parts) (preprocessed table y)) /\
    In (StDataframe (flagged_view detector (X_test parts) (preprocessed table y))) log.
Proof.
  intros Hne Hload Hy Hrect Hsplit Hlen1 Hlen2 detector.
  destruct uploaded_files as [|f fs]; [congruence|].
  set (l := fresh (dom h)).
  destruct (evaluate_model_run
              (train_model L (X_train parts) (y_train parts) n_estimators)
              (X_test parts) (y_test parts)
              (<[l := preprocessed table y]> (<[l := table]> h)) Hlen1)
    as (acc & cm & _ & _ & Heval).
  eexists. eexists. split; [|split].
  - unfold main.
    eapply prog_bind_ok; [reflexivity|].
    eapply prog_bind_ok; [reflexivity|].
    lazy beta iota.
    eapply prog_bind_ok; [unfold lift_ui; rewrite Hload; reflexivity|].
    eapply prog_bind_ok; [reflexivity|].
    eapply prog_bind_ok; [reflexivity|].
    fold l.
    eapply prog_bind_ok; [reflexivity|].
    eapply prog_bind_ok; [apply deref_ok, lookup_insert_eq|].
    eapply prog_bind_ok; [reflexivity|].
    eapply prog_bind_ok.
    { rewrite (preprocess_data_run L l _ table y)
        by (try apply lookup_insert_eq; assumption).
      rewrite Hsplit. reflexivity. }
    cbn [fst snd].
    eapply prog_bind_ok; [reflexivity|].
    lazy zeta.
    eapply prog_bind_ok; [reflexivity|].
    eapply prog_bind_ok; [exact Heval|].
    apply (detect_anomalies_run detector (X_test parts) l _ (preprocessed table y)).
    + apply lookup_insert_eq.
    + exact Hlen2.
  - apply lookup_insert_eq.
  - repeat (apply in_or_app; right).
    unfold flagged_log. simpl. right. left. reflexivity.
Qed.

(** C10: [preprocess_data] rewrites the table it is handed.  After the call
    returns, the table behind the reference has its "Label" column replaced
    by the integer codes of the labels and has lost "Timestamp" and "ID";
    its row count and every other column are as before.  The view of flagged
    rows that [main] shows afterwards is cut from this rewritten table. *)
Theorem preprocess_data_mutates_in_place (L : library)
    (uploaded_files : list (list frame)) (n_estimators : nat)
    (h : gmap nat frame) (table : frame) (log0 : list ui_event)
    (y : column) (parts : split (row L)) (sc : scaler L) :
  uploaded_files <> [] ->
  load_and_combine_data L uploaded_files = (Ok table, log0) ->
  getcol "Label" table = Some y ->
  col_length y = nrows table ->
  features_and_split L (preprocessed table y) = Ok (parts, sc) ->
  length (X_test parts) = length (y_test parts) ->
  (length (X_test parts) <= nrows table)%nat ->
  let after := preprocessed table y in
  let detector := train_anomaly_detector L (X_train parts) in
  (forall (heap : gmap nat frame) (data : nat),
     heap !! data = Some table ->
     exists heap' log,
       preprocess_data L data heap = (Ok (parts, sc, classes_of y), heap', log) /\
       heap' !! data = Some after /\
       forall other, other <> data -> heap' !! other = heap !! other) /\
  (nrows after = nrows table /\
   getcol "Label" after = Some (IntCol (fit_transform y)) /\
   getcol "Timestamp" after = None /\
   getcol "ID" after = None /\
   forall name,
     name <> "Label" -> name <> "Timestamp" -> name <> "ID" ->
     getcol name after = getcol name table) /\
  exists h' log,
    main L uploaded_files n_estimators true h = (Ok tt, h', log) /\
    In (StDataframe
          (select_rows
             (eq_mask "Anomaly"
                (ObjCol (anomaly_column (map verdict (map detector (X_test parts)))
                                        (nrows after))))
             (set_column "Anomaly Prediction"
                (ObjCol (anomaly_column (map verdict (map detector (X_test parts)))
                                        (nrows after)))
                after)))
       log.
Proof.
  intros Hne Hload Hy Hrect Hsplit Hlen1 Hlen2 after detector.
  split; [|split].
  - intros heap data Hdata.
    exists (<[data := after]> heap), [class_distribution y].
    split; [|split].
    + rewrite (preprocess_data_run L data heap table y Hdata Hy Hrect).
      rewrite Hsplit. reflexivity.
    + apply lookup_insert_eq.
    + intros other Hother. now apply lookup_insert_ne.
  - apply preprocessed_columns.
  - destruct (main_shows_flagged_view L uploaded_files n_estimators h table log0
                y parts sc Hne Hload Hy Hrect Hsplit Hlen1 Hlen2)
      as (h' & log & Hmain & _ & Hin).
    exists h', log. split; assumption.
Qed.

(** ** The pipeline on a small instance *)

Lemma load_overwrites_existing_label_witness :
  exists out,
    In out (fst (load_chunks demo_library [[demo_labelled_chunk]])) /\
    out = fst (process_chunk demo_library demo_labelled_chunk) /\
    getcol "Label" out = Some (CatCol [Some "normal"; Some "normal"]) /\
    nrows out = 2%nat /\
    colnames out = ["Label"; "bytes"].
Proof.
  apply (load_overwrites_existing_label demo_library [[demo_labelled_chunk]]
           demo_labelled_chunk).
  - left. reflexivity.
  - cbv. distinct_names.
  - left. reflexivity.
  - simpl. intros [H|[H|[]]]; discriminate H.
  - simpl. intros [H|[H|[]]]; discriminate H.
Defined.

Lemma preprocess_data_mutates_in_place_witness :
  let table :=
    mkFrame 3 [("bytes", FloatCol W32 [Fin 50; Fin 7; Fin 9]);
               ("Timestamp", FloatCol W32 [Fin 1; Fin 2; Fin 3]);
               ("Label", CatCol [Some "attack"; Some "normal"; Some "normal"])] in
  let after :=
    mkFrame 3 [("bytes", FloatCol W32 [Fin 50; Fin 7; Fin 9]);
               ("Label", IntCol [0; 1; 1]%Z)] in
  (nrows after = 3%nat /\
   getcol "Label" after = Some (IntCol [0; 1; 1]%Z) /\
   getcol "Timestamp" after = None /\
   getcol "ID" after = None /\
   forall name,
     name <> "Label" -> name <> "Timestamp" -> name <> "ID" ->
     getcol name after = getcol name table) /\
  exists h' log,
    main demo_library [[demo_chunk]] 100 true ∅ = (Ok tt, h', log) /\
    In (StDataframe
          (mkFrame 1 [("bytes", FloatCol W32 [Fin 50]);
                      ("Label", IntCol [0%Z]);
                      ("Anomaly Prediction", ObjCol [Some "Anomaly"])]))
       log.
Proof.
  intros table after.
  refine (proj2 (preprocess_data_mutates_in_place demo_library [[demo_chunk]] 100 ∅
                   table []
                   (CatCol [Some "attack"; Some "normal"; Some "normal"])
                   (mkSplit [Fin 7; Fin 9] [Fin 50] [1; 1]%Z [0%Z]) tt
                   _ eq_refl eq_refl eq_refl eq_refl eq_refl _)).
  - discriminate.
  - simpl. lia.
Defined.

(** ** The label column after ingestion *)

Lemma names_rename old new data :
  In old (colnames data) -> In new (colnames (rename_column old new data)).
Proof.
  unfold colnames, rename_column. simpl. rewrite map_map. simpl.
  intros Hin. apply in_map_iff in Hin as ([n c] & <- & Hin).
  apply in_map_iff. exists (n, c). simpl. rewrite String.eqb_refl. auto.
Qed.

Lemma names_set_assoc_In name c cs : In name (map fst (set_assoc name c cs)).
Proof.
  induction cs as [|[n c'] cs IH]; simpl; [now left|].
  destruct (String.eqb name n) eqn:E; simpl.
  - left. apply String.eqb_eq in E. congruence.
  - now right.
Qed.

(** Whatever the columns of the upload, the chunk handed to
    [optimize_memory_usage] has a "Label" column: inside
    [load_and_combine_data] the error branch of [handle_missing_values] is
    not taken and nothing is logged. *)
Lemma normalize_label_has_label chunk :
  has_column "Label" (normalize_label chunk) = true.
Proof.
  unfold normalize_label. cbv zeta.
  destruct (has_column "label" (strip_columns chunk)) eqn:E1.
  - apply has_column_true. apply names_rename. now apply has_column_true.
  - destruct (has_column "Class" (strip_columns chunk)) eqn:E2.
    + apply has_column_true. apply names_rename. now apply has_column_true.
    + apply has_column_true. apply names_set_assoc_In.
Qed.

Lemma process_chunk_silent L chunk : snd (process_chunk L chunk) = [].
Proof.
  unfold process_chunk.
  now rewrite (optimize_memory_usage_labelled L _ (normalize_label_has_label chunk)).
Qed.

(** ** More on [handle_missing_values] *)

Lemma handle_missing_values_result data :
  fst (handle_missing_values data) = fill_numeric (replace_inf (labelled_rows data)).
Proof.
  unfold labelled_rows. destruct (has_column "Label" data) eqn:E.
  - now rewrite handle_missing_values_labelled.
  - now rewrite handle_missing_values_unlabelled.
Qed.

Lemma insert_sorted_In x y l : In y (insert_sorted x l) <-> y = x \/ In y l.
Proof.
  induction l as [|z l IH]; simpl; [intuition|].
  destruct (fval_leb x z); simpl; [intuition|]. rewrite IH. intuition.
Qed.

Lemma sort_fvals_In y l : In y (sort_fvals l) <-> In y l.
Proof.
  induction l as [|x l IH]; simpl; [reflexivity|].
  rewrite insert_sorted_In, IH. intuition.
Qed.

Lemma update_assoc_Forall (P : column -> Prop) f name cs :
  (forall c, P c -> P (f c)) ->
  Forall (fun nc => P (snd nc)) cs ->
  Forall (fun nc => P (snd nc)) (update_assoc f name cs).
Proof.
  intros Hf. induction 1 as [|[n c] cs Hc Hcs IH]; simpl; [constructor|].
  destruct (String.eqb name n); constructor; simpl in *; auto.
Qed.

Lemma fold_update_Forall (P : column -> Prop) f names data :
  (forall c, P c -> P (f c)) ->
  Forall (fun nc => P (snd nc)) (columns data) ->
  Forall (fun nc => P (snd nc))
         (columns (fold_left (fun d col => update_col f col d) names data)).
Proof.
  intros Hf. revert data. induction names as [|a names IH]; intros data H; simpl;
    [assumption|].
  apply IH. simpl. now apply update_assoc_Forall.
Qed.

Lemma getcol_in_colnames name c data :
  getcol name data = Some c -> has_column name data = true.
Proof.
  intros Hg. apply has_column_true. apply assoc_some_in in Hg.
  now apply (in_map fst) in Hg.
Qed.

Lemma getcol_select_rows mask name data :
  getcol name (select_rows mask data) = option_map (keep_col mask) (getcol name data).
Proof. apply assoc_map_snd. Qed.

Lemma keep_present xs : keep (map is_present xs) xs = List.filter is_present xs.
Proof.
  induction xs as [|x xs IH]; simpl; [reflexivity|].
  destruct (is_present x); now rewrite IH.
Qed.

Lemma count_true_present xs :
  count_true (map is_present xs) = length (List.filter is_present xs).
Proof.
  unfold count_true. induction xs as [|x xs IH]; simpl; [reflexivity|].
  destruct (is_present x); simpl; now rewrite IH.
Qed.

Lemma text_not_numeric c : is_text c = true -> is_numeric c = false.
Proof. now destruct c. Qed.

Lemma fill_median_text c : is_numeric c = false -> fill_median c = c.
Proof. now destruct c. Qed.

Lemma replace_inf_text c : is_numeric c = false -> replace_inf_col c = c.
Proof. now destruct c. Qed.

(** A column that is not numeric passes lines 21-23 unchanged. *)
Lemma getcol_imputed_other name c data :
  getcol name data = Some c -> is_numeric c = false ->
  getcol name (fill_numeric (replace_inf data)) = Some c.
Proof.
  intros Hg Hn. unfold fill_numeric.
  apply fold_update_fixed; [now apply fill_median_text|].
  rewrite getcol_replace_inf, Hg. simpl. now rewrite replace_inf_text.
Qed.

(** The label column and the row count after the rows without a label are
    dropped. *)
Lemma cleaned_label_column (data : frame) (c : column) :
  getcol "Label" data = Some c ->
  is_text c = true ->
  getcol "Label" (fst (handle_missing_values data))
  = Some (keep_col (present_mask c) c) /\
  text_cells (keep_col (present_mask c) c) = List.filter is_present (text_cells c) /\
  nrows (fst (handle_missing_values data))
  = length (List.filter is_present (text_cells c)).
Proof.
  intros Hg Ht.
  rewrite (handle_missing_values_labelled data (getcol_in_colnames _ _ _ Hg)). simpl.
  unfold dropna_subset. rewrite Hg.
  split; [|split].
  - apply getcol_imputed_other.
    + now rewrite getcol_select_rows, Hg.
    + destruct c; try discriminate; reflexivity.
  - destruct c; try discriminate; simpl; apply keep_present.
  - rewrite fill_numeric_nrows. simpl.
    destruct c; try discriminate; simpl; apply count_true_present.
Qed.



(** X3: text is never imputed.  A column that is not numeric comes back as
    it stood among the rows that are kept; a missing text cell stays
    missing. *)
Theorem handle_missing_values_leaves_text (data : frame) (name : string) (c : column) :
  getcol name (labelled_rows data) = Some c ->
  is_numeric c = false ->
  getcol name (fst (handle_missing_values data)) = Some c.
Proof.
  intros Hg Hn. rewrite handle_missing_values_result.
  now apply getcol_imputed_other.
Qed.

Lemma handle_missing_values_leaves_text_witness :
  let data := mkFrame 3 [("proto", ObjCol [Some "tcp"; None; None]);
                         ("Label", ObjCol [Some "normal"; None; Some "dos"])] in
  getcol "proto" (fst (handle_missing_values data)) = Some (ObjCol [Some "tcp"; None]).
Proof.
  intros data.
  exact (handle_missing_values_leaves_text data "proto" (ObjCol [Some "tcp"; None])
           eq_refl eq_refl).
Defined.

Lemma keep_length {A} (mask : list bool) (xs : list A) :
  length xs = length mask -> length (keep mask xs) = count_true mask.
Proof.
  unfold count_true. revert xs.
  induction mask as [|b mask IH]; intros [|x xs] Hlen; try discriminate; [reflexivity|].
  simpl. destruct b; simpl; rewrite IH by (simpl in Hlen; lia); reflexivity.
Qed.

Lemma count_true_le mask : (count_true mask <= length mask)%nat.
Proof. unfold count_true. apply filter_length_le. Qed.

Lemma present_mask_length c : length (present_mask c) = col_length c.
Proof. destruct c; simpl; apply length_map. Qed.

Lemma keep_col_length mask c :
  col_length c = length mask -> col_length (keep_col mask c) = count_true mask.
Proof. destruct c; simpl; apply keep_length. Qed.

Lemma rectangular_getcol name c data :
  rectangular data -> getcol name data = Some c -> col_length c = nrows data.
Proof.
  intros Hr Hg. apply assoc_some_in in Hg.
  unfold rectangular in Hr. rewrite List.Forall_forall in Hr.
  apply (Hr (name, c) Hg).
Qed.

Lemma rectangular_select_rows mask data :
  rectangular data -> length mask = nrows data -> rectangular (select_rows mask data).
Proof.
  intros Hr Hm. unfold rectangular, select_rows in *. simpl.
  rewrite List.Forall_forall in *. intros nc Hnc.
  apply in_map_iff in Hnc as (nc0 & <- & Hin). simpl.
  apply keep_col_length. rewrite Hm. now apply Hr.
Qed.

Lemma replace_inf_col_length c : col_length (replace_inf_col c) = col_length c.
Proof. destruct c; simpl; try reflexivity. apply length_map. Qed.

Lemma fill_median_length c : col_length (fill_median c) = col_length c.
Proof. destruct c; simpl; try reflexivity. apply length_map. Qed.

Lemma rectangular_imputed data :
  rectangular data -> rectangular (fill_numeric (replace_inf data)).
Proof.
  intros Hr. unfold rectangular. rewrite fill_numeric_nrows. simpl.
  unfold fill_numeric.
  apply (fold_update_Forall (fun c => col_length c = nrows data)).
  - intros c Hc. now rewrite fill_median_length.
  - simpl. unfold rectangular in Hr. rewrite List.Forall_forall in *.
    intros nc Hnc. apply in_map_iff in Hnc as (nc0 & <- & Hin). simpl.
    rewrite replace_inf_col_length. now apply Hr.
Qed.

Lemma rectangular_labelled_rows data :
  rectangular data ->
  rectangular (labelled_rows data) /\ (nrows (labelled_rows data) <= nrows data)%nat.
Proof.
  intros Hr. unfold labelled_rows.
  destruct (has_column "Label" data); [|split; [assumption|lia]].
  unfold dropna_subset. destruct (getcol "Label" data) as [c|] eqn:Hg;
    [|split; [assumption|lia]].
  pose proof (rectangular_getcol _ _ _ Hr Hg) as Hc.
  split.
  - apply rectangular_select_rows; [assumption|].
    now rewrite present_mask_length.
  - simpl. rewrite <- Hc, <- present_mask_length. apply count_true_le.
Qed.

Lemma colnames_labelled_rows data : colnames (labelled_rows data) = colnames data.
Proof.
  unfold labelled_rows. destruct (has_column "Label" data); [|reflexivity].
  unfold dropna_subset. destruct (getcol "Label" data); [|reflexivity].
  unfold colnames, select_rows. simpl. apply names_map_snd.
Qed.

(** X4: [handle_missing_values] keeps the shape of the table: the columns
    keep their names and order, a table whose columns all have the length of
    the index comes back with that property, and never with more rows. *)
Theorem handle_missing_values_keeps_shape (data : frame) :
  rectangular data ->
  colnames (fst (handle_missing_values data)) = colnames data /\
  rectangular (fst (handle_missing_values data)) /\
  (nrows (fst (handle_missing_values data)) <= nrows data)%nat.
Proof.
  intros Hr. rewrite handle_missing_values_result.
  destruct (rectangular_labelled_rows data Hr) as [Hr' Hn].
  split; [|split].
  - unfold fill_numeric. rewrite colnames_fold_update.
    unfold colnames at 1, replace_inf. simpl. rewrite names_map_snd.
    apply colnames_labelled_rows.
  - now apply rectangular_imputed.
  - now rewrite fill_numeric_nrows.
Qed.

Lemma handle_missing_values_keeps_shape_witness :
  let data := mkFrame 3 [("bytes", FloatCol W64 [Fin 5; PosInf; NaN]);
                         ("Label", ObjCol [Some "normal"; None; Some "dos"])] in
  colnames (fst (handle_missing_values data)) = ["bytes"; "Label"] /\
  rectangular (fst (handle_missing_values data)) /\
  (nrows (fst (handle_missing_values data)) <= 3)%nat.
Proof.
  intros data. apply (handle_missing_values_keeps_shape data).
  repeat constructor.
Defined.

(** ** The fill value and the observed values *)

Lemma Qred_mid_between (a b : Q) :
  (a <= b)%Q -> (a <= Qred ((a + b) / 2))%Q /\ (Qred ((a + b) / 2) <= b)%Q.
Proof.
  intros H. split.
  - eapply Qle_trans; [|apply Qle_lteq; right; symmetry; apply Qred_correct].
    apply Qle_shift_div_l; [reflexivity|]. lra.
  - eapply Qle_trans; [apply Qle_lteq; right; apply Qred_correct|].
    apply Qle_shift_div_r; [reflexivity|]. lra.
Qed.

(** The mean of two finite cells is an infinity when their sum overflows
    and lies between them otherwise. *)
Lemma fval_mid_cases (qx qy : Q) :
  (is_infinite (fval_mid (Fin qx) (Fin qy)) = true /\ overflows qx qy) \/
  (exists q lo hi,
     fval_mid (Fin qx) (Fin qy) = Fin q /\
     (lo = qx \/ lo = qy) /\ (hi = qx \/ hi = qy) /\
     (lo <= q)%Q /\ (q <= hi)%Q).
Proof.
  unfold fval_mid, overflows.
  destruct (Qle_bool float64_overflow (qx + qy)) eqn:E1.
  { left. apply Qle_bool_iff in E1. auto. }
  destruct (Qle_bool (qx + qy) (- float64_overflow)) eqn:E2.
  { left. apply Qle_bool_iff in E2. auto. }
  right. destruct (Qlt_le_dec qy qx) as [Hlt|Hle].
  - exists (Qred ((qx + qy) / 2)), qy, qx.
    assert (Hle : (qy <= qx)%Q) by now apply Qlt_le_weak.
    repeat split; auto.
    + eapply Qle_trans; [|apply Qle_lteq; right; symmetry; apply Qred_correct].
      apply Qle_shift_div_l; [reflexivity|]. lra.
    + eapply Qle_trans; [apply Qle_lteq; right; apply Qred_correct|].
      apply Qle_shift_div_r; [reflexivity|]. lra.
  - exists (Qred ((qx + qy) / 2)), qx, qy.
    destruct (Qred_mid_between qx qy Hle) as [H1 H2].
    repeat split; auto.
Qed.

Lemma finite_is_Fin v : is_finite v = true -> exists q, v = Fin q.
Proof. destruct v; try discriminate. eauto. Qed.

Lemma nth_sorted_finite l i :
  Forall (fun v => is_finite v = true) l -> (i < length l)%nat ->
  exists q, nth i (sort_fvals l) NaN = Fin q /\ In (Fin q) l.
Proof.
  intros Hl Hi.
  assert (Hin : In (nth i (sort_fvals l) NaN) l).
  { apply (proj1 (sort_fvals_In _ _)). apply nth_In. now rewrite sort_fvals_length. }
  rewrite List.Forall_forall in Hl.
  destruct (finite_is_Fin _ (Hl _ Hin)) as [q Hq].
  exists q. split; [assumption|]. now rewrite <- Hq.
Qed.

(** The median of finite cells: missing when there is none, an infinity
    when the two middle cells overflow, and otherwise a finite number
    between two of the cells. *)
Lemma median_cases l :
  Forall (fun v => is_finite v = true) l ->
  median l = NaN \/
  (is_infinite (median l) = true /\
   exists a b, In (Fin a) l /\ In (Fin b) l /\ overflows a b) \/
  (exists q lo hi,
     median l = Fin q /\ In (Fin lo) l /\ In (Fin hi) l /\
     (lo <= q)%Q /\ (q <= hi)%Q).
Proof.
  intros Hl. unfold median. rewrite (filter_notna_finite l Hl).
  rewrite sort_fvals_length.
  destruct (Nat.eqb (length l) 0) eqn:E0; [now left|]. right.
  apply Nat.eqb_neq in E0.
  assert (Hhalf : (length l / 2 < length l)%nat) by (apply Nat.div_lt; lia).
  destruct (Nat.odd (length l)).
  - right. destruct (nth_sorted_finite l (length l / 2) Hl Hhalf) as (q & Hq & Hin).
    exists q, q, q. rewrite Hq. repeat split; auto; apply Qle_refl.
  - destruct (nth_sorted_finite l (length l / 2 - 1) Hl) as (qa & Ha & Hina); [lia|].
    destruct (nth_sorted_finite l (length l / 2) Hl Hhalf) as (qb & Hb & Hinb).
    rewrite Ha, Hb.
    destruct (fval_mid_cases qa qb)
      as [[Hinf Hov]|(q & lo & hi & Hq & Hlo & Hhi & H1 & H2)].
    + left. split; [exact Hinf|]. exists qa, qb. auto.
    + right. exists q, lo, hi. repeat split; auto.
      * destruct Hlo as [->| ->]; assumption.
      * destruct Hhi as [->| ->]; assumption.
Qed.

Lemma lookup_map_inv {A B} (f : A -> B) (l : list A) (i : nat) (y : B) :
  map f l !! i = Some y -> exists x, l !! i = Some x /\ y = f x.
Proof.
  revert i. induction l as [|x l IH]; intros [|i]; simpl; try discriminate.
  - intros [= <-]. eauto.
  - apply IH.
Qed.

(** X1: an infinity of the input never survives.  In an int64 or float64
    column of the returned table (of a table with distinct column names) a
    cell can be infinite only at a position that was missing or infinite, as
    the median written there, and only when the column has two finite cells
    whose sum is beyond binary64; without such a pair the column comes back
    free of infinities. *)
Theorem handle_missing_values_no_infinity (data : frame) (name : string) (c : column) :
  List.NoDup (colnames data) ->
  getcol name (labelled_rows data) = Some c ->
  is_numeric c = true ->
  is_float32 c = false ->
  exists c',
    getcol name (fst (handle_missing_values data)) = Some c' /\
    (forall i v,
       cells c' !! i = Some v -> is_infinite v = true ->
       (exists x, cells c !! i = Some x /\ is_finite x = false) /\
       v = median (List.filter is_finite (cells c)) /\
       exists a b, In (Fin a) (cells c) /\ In (Fin b) (cells c) /\ overflows a b) /\
    ((forall a b, In (Fin a) (cells c) -> In (Fin b) (cells c) -> ~ overflows a b) ->
     Forall (fun v => is_infinite v = false) (cells c')).
Proof.
  intros _ Hg Hn _. rewrite handle_missing_values_result.
  destruct (impute_column name c _ Hg Hn) as (c' & H1 & _ & H3 & _).
  exists c'. split; [exact H1|]. rewrite H3.
  assert (Hcell : forall x, is_infinite (imputed (median (List.filter is_finite (cells c))) x) = true ->
                  is_finite x = false /\
                  imputed (median (List.filter is_finite (cells c))) x
                  = median (List.filter is_finite (cells c)) /\
                  exists a b, In (Fin a) (cells c) /\ In (Fin b) (cells c) /\ overflows a b).
  { intros x Hinf. unfold imputed in *.
    destruct (is_finite x) eqn:Efin.
    - destruct (finite_is_Fin x Efin) as [q ->]. discriminate Hinf.
    - split; [reflexivity|]. split; [reflexivity|].
      destruct (median_cases _ (filter_finite_Forall (cells c)))
        as [E|[[_ (a & b & Ha & Hb & Hov)]|(q & lo & hi & E & _)]].
      + rewrite E in Hinf. discriminate Hinf.
      + apply filter_In in Ha as [Ha _]. apply filter_In in Hb as [Hb _]. eauto.
      + rewrite E in Hinf. discriminate Hinf. }
  split.
  - intros i v Hv Hinf. apply lookup_map_inv in Hv as (x & Hx & ->).
    destruct (Hcell x Hinf) as (Hfin & Hm & Hov). eauto.
  - intros Hno. apply List.Forall_forall. intros v Hv.
    apply in_map_iff in Hv as (x & <- & _).
    destruct (is_infinite (imputed _ x)) eqn:E; [|reflexivity].
    destruct (Hcell x E) as (_ & _ & a & b & Ha & Hb & Hov).
    exfalso. exact (Hno a b Ha Hb Hov).
Qed.

Lemma handle_missing_values_no_infinity_witness :
  let big := inject_Z (15 * 10 ^ 307) in
  let data := mkFrame 3 [("bytes", FloatCol W64 [Fin big; NegInf; Fin big]);
                         ("Label", ObjCol [Some "normal"; Some "dos"; Some "dos"])] in
  exists c',
    getcol "bytes" (fst (handle_missing_values data)) = Some c' /\
    (forall i v,
       cells c' !! i = Some v -> is_infinite v = true ->
       (exists x, [Fin big; NegInf; Fin big] !! i = Some x /\ is_finite x = false) /\
       v = PosInf /\
       exists a b, In (Fin a) [Fin big; NegInf; Fin big] /\
                   In (Fin b) [Fin big; NegInf; Fin big] /\ overflows a b) /\
    ((forall a b, In (Fin a) [Fin big; NegInf; Fin big] ->
                  In (Fin b) [Fin big; NegInf; Fin big] -> ~ overflows a b) ->
     Forall (fun v => is_infinite v = false) (cells c')).
Proof.
  intros big data.
  refine (handle_missing_values_no_infinity data "bytes"
            (FloatCol W64 [Fin big; NegInf; Fin big]) _ eq_refl eq_refl eq_refl).
  distinct_names.
Defined.

(** X5: imputation stays within what was observed.  In an int64 or float64
    column (of a table with distinct column names) whose median over the
    finite cells is a finite number, every cell of the returned column is a
    finite number lying between two finite values of the column as it stood
    among the kept rows. *)
Theorem handle_missing_values_fill_in_range (data : frame) (name : string) (c : column) :
  List.NoDup (colnames data) ->
  getcol name (labelled_rows data) = Some c ->
  is_numeric c = true ->
  is_float32 c = false ->
  is_finite (median (List.filter is_finite (cells c))) = true ->
  exists c',
    getcol name (fst (handle_missing_values data)) = Some c' /\
    Forall (fun v => exists q lo hi,
              v = Fin q /\ In (Fin lo) (cells c) /\ In (Fin hi) (cells c) /\
              (lo <= q)%Q /\ (q <= hi)%Q)
           (cells c').
Proof.
  intros _ Hg Hn _ Hmed. rewrite handle_missing_values_result.
  destruct (impute_column name c _ Hg Hn) as (c' & H1 & _ & H3 & _).
  exists c'. split; [assumption|]. rewrite H3.
  destruct (median_cases _ (filter_finite_Forall (cells c)))
    as [E|[[Hinf _]|(q & lo & hi & Hq & Hlo & Hhi & Hb1 & Hb2)]].
  { rewrite E in Hmed. discriminate Hmed. }
  { destruct (median _); discriminate. }
  apply filter_In in Hlo as [Hlo _]. apply filter_In in Hhi as [Hhi _].
  apply List.Forall_forall. intros v Hv.
  apply in_map_iff in Hv as (x & <- & Hx). unfold imputed.
  destruct (is_finite x) eqn:Efin.
  - destruct (finite_is_Fin x Efin) as [qx ->].
    exists qx, qx, qx. repeat split; auto; apply Qle_refl.
  - rewrite Hq. exists q, lo, hi. repeat split; auto.
Qed.

Lemma handle_missing_values_fill_in_range_witness :
  let data := mkFrame 4 [("bytes", FloatCol W64 [Fin 5; PosInf; NaN; Fin 9]);
                         ("Label", ObjCol [Some "normal"; None; Some "dos"; Some "dos"])] in
  exists c',
    getcol "bytes" (fst (handle_missing_values data)) = Some c' /\
    Forall (fun v => exists q lo hi,
              v = Fin q /\ In (Fin lo) [Fin 5; NaN; Fin 9] /\
              In (Fin hi) [Fin 5; NaN; Fin 9] /\
              (lo <= q)%Q /\ (q <= hi)%Q)
           (cells c').
Proof.
  intros data.
  refine (handle_missing_values_fill_in_range data "bytes"
            (FloatCol W64 [Fin 5; NaN; Fin 9]) _ eq_refl eq_refl eq_refl eq_refl).
  distinct_names.
Defined.

(** ** Cleaning a cleaned table *)

Lemma keep_all_same {A} (xs : list A) : keep (repeat true (length xs)) xs = xs.
Proof. induction xs as [|x xs IH]; simpl; [reflexivity|]. now rewrite IH. Qed.

Lemma keep_col_all c : keep_col (repeat true (col_length c)) c = c.
Proof. destruct c; simpl; now rewrite keep_all_same. Qed.

Lemma map_snd_id (g : column -> column) (cs : list (string * column)) :
  Forall (fun nc => g (snd nc) = snd nc) cs ->
  map (fun nc => (fst nc, g (snd nc))) cs = cs.
Proof.
  induction 1 as [|[n c] cs Hc Hcs IH]; simpl; [reflexivity|].
  simpl in Hc. now rewrite Hc, IH.
Qed.

Lemma select_rows_all data :
  rectangular data -> select_rows (repeat true (nrows data)) data = data.
Proof.
  intros Hr. destruct data as [n cs]. unfold select_rows. simpl in *.
  rewrite count_true_all. f_equal. apply map_snd_id.
  unfold rectangular in Hr. simpl in Hr.
  eapply List.Forall_impl; [|exact Hr]. intros [m c] Hc. simpl in *.
  rewrite <- Hc. apply keep_col_all.
Qed.

Lemma present_mask_all c :
  is_text c = true -> Forall (fun o => is_present o = true) (text_cells c) ->
  present_mask c = repeat true (col_length c).
Proof.
  destruct c as [zs|w xs|os|os]; try discriminate; simpl; intros _ H.
  all: induction H as [|o os Ho Hos IH]; simpl; [reflexivity|];
    rewrite IH; destruct o; [reflexivity|discriminate Ho].
Qed.

Lemma inf_to_nan_id xs :
  Forall (fun v => is_infinite v = false) xs -> map inf_to_nan xs = xs.
Proof.
  induction 1 as [|x xs Hx Hxs IH]; simpl; [reflexivity|].
  rewrite IH. destruct x; try reflexivity; discriminate Hx.
Qed.

Lemma replace_inf_col_id c : inf_free c -> replace_inf_col c = c.
Proof. destruct c; simpl; try reflexivity. intros H. now rewrite inf_to_nan_id. Qed.

Lemma replace_inf_col_free c : inf_free (replace_inf_col c).
Proof.
  destruct c as [zs|w xs|os|os]; simpl; auto.
  apply List.Forall_forall. intros y Hy. apply in_map_iff in Hy as (x & <- & _).
  now destruct x.
Qed.

(** Filling with an infinite median and taking the infinities out again
    gives the cells back. *)
Lemma unfill_infinite m xs :
  is_infinite m = true ->
  Forall (fun v => is_infinite v = false) xs ->
  map inf_to_nan (map (fill_cell m) xs) = xs.
Proof.
  intros Hm. induction 1 as [|x xs Hx Hxs IH]; simpl; [reflexivity|].
  rewrite IH. f_equal. destruct x; try discriminate Hx; [reflexivity|].
  simpl. destruct m; try discriminate Hm; reflexivity.
Qed.

Lemma fill_finite_free m xs :
  is_infinite m = false ->
  Forall (fun v => is_infinite v = false) xs ->
  Forall (fun v => is_infinite v = false) (map (fill_cell m) xs).
Proof.
  intros Hm Hxs. apply List.Forall_forall. intros y Hy.
  apply in_map_iff in Hy as (x & <- & Hx).
  rewrite List.Forall_forall in Hxs. specialize (Hxs x Hx).
  destruct x; simpl; auto.
Qed.

(** On a column without infinities, filling, replacing the infinities the
    fill may have written and filling again is filling once. *)
Lemma fill_replace_fill c :
  inf_free c -> fill_median (replace_inf_col (fill_median c)) = fill_median c.
Proof.
  destruct c as [zs|w xs|os|os]; try reflexivity.
  intros Hxs. simpl in Hxs.
  destruct (is_infinite (median xs)) eqn:Em.
  - unfold fill_median at 2. simpl.
    now rewrite (unfill_infinite _ _ Em Hxs).
  - rewrite replace_inf_col_id; [apply fill_median_idem|].
    simpl. now apply fill_finite_free.
Qed.

Lemma touch_nil f cs : touch f [] cs = cs.
Proof. induction cs as [|[n c] cs IH]; simpl; [reflexivity|]. now rewrite IH. Qed.

Lemma without_absent n names :
  existsb (String.eqb n) names = false -> without n names = names.
Proof.
  unfold without. induction names as [|a names IH]; simpl; [reflexivity|].
  destruct (String.eqb n a); simpl; [discriminate|].
  intros H. now rewrite IH.
Qed.

Lemma without_same n names : without n (n :: names) = without n names.
Proof. unfold without. simpl. now rewrite String.eqb_refl. Qed.

Lemma without_other n a names :
  String.eqb n a = false -> without n (a :: names) = a :: without n names.
Proof. intros H. unfold without. simpl. now rewrite H. Qed.

(** One more name in the list is one more update of the columns. *)
Lemma touch_cons f a names cs :
  (forall c, f (f c) = f c) ->
  touch f (a :: names) cs = touch f names (update_assoc f a cs).
Proof.
  intros Hf. revert names. induction cs as [|[n c] cs IH]; intros names; [reflexivity|].
  cbn [touch update_assoc existsb]. destruct (String.eqb a n) eqn:Ean.
  - apply String.eqb_eq in Ean. subst a. rewrite String.eqb_refl.
    cbn [orb touch]. rewrite without_same.
    destruct (existsb (String.eqb n) names) eqn:E.
    + now rewrite Hf.
    + now rewrite (without_absent n names E).
  - assert (Hna : String.eqb n a = false) by (now rewrite String.eqb_sym).
    rewrite Hna. cbn [orb touch].
    destruct (existsb (String.eqb n) names) eqn:E.
    + rewrite (without_other n a names Hna). now rewrite IH.
    + now rewrite IH.
Qed.

(** The loop over the names, column by column. *)
Lemma fold_touch f names data :
  (forall c, f (f c) = f c) ->
  columns (fold_left (fun d col => update_col f col d) names data)
  = touch f names (columns data).
Proof.
  intros Hf. revert data. induction names as [|a names IH]; intros data; simpl.
  - now rewrite touch_nil.
  - rewrite IH. simpl. now rewrite touch_cons.
Qed.

Lemma touch_clean names cs :
  Forall (fun nc => inf_free (snd nc)) cs ->
  touch fill_median names
        (map (fun nc => (fst nc, replace_inf_col (snd nc)))
             (touch fill_median names cs))
  = touch fill_median names cs.
Proof.
  intros H. revert names. induction H as [|[n c] cs Hc Hcs IH]; intros names;
    [reflexivity|].
  simpl. destruct (existsb (String.eqb n) names) eqn:E; simpl; rewrite E.
  - rewrite (fill_replace_fill c Hc). now rewrite IH.
  - rewrite (replace_inf_col_id c Hc). now rewrite IH.
Qed.

Lemma fill_median_numeric c : is_numeric (fill_median c) = is_numeric c.
Proof. now destruct c. Qed.

Lemma numeric_names_update name cs :
  map fst (List.filter (fun nc => is_numeric (snd nc)) (update_assoc fill_median name cs))
  = map fst (List.filter (fun nc => is_numeric (snd nc)) cs).
Proof.
  induction cs as [|[n c] cs IH]; simpl; [reflexivity|].
  destruct (String.eqb name n); simpl.
  - rewrite fill_median_numeric. destruct (is_numeric c); reflexivity.
  - destruct (is_numeric c); simpl; now rewrite IH.
Qed.

Lemma select_numeric_fold names data :
  select_numeric (fold_left (fun d col => update_col fill_median col d) names data)
  = select_numeric data.
Proof.
  revert data. induction names as [|a names IH]; intros data; simpl; [reflexivity|].
  rewrite IH. apply numeric_names_update.
Qed.

Lemma select_numeric_replace_inf data :
  select_numeric (replace_inf data) = select_numeric data.
Proof.
  unfold select_numeric, replace_inf. simpl.
  induction (columns data) as [|[n c] cs IH]; simpl; [reflexivity|].
  rewrite replace_inf_numeric. destruct (is_numeric c); simpl; now rewrite IH.
Qed.

(** Lines 21-23 on a table they have already worked on. *)
Lemma imputed_again data :
  fill_numeric (replace_inf (fill_numeric (replace_inf data)))
  = fill_numeric (replace_inf data).
Proof.
  set (d := replace_inf data).
  assert (Hfree : Forall (fun nc => inf_free (snd nc)) (columns d)).
  { unfold d, replace_inf. simpl. apply List.Forall_forall. intros nc Hnc.
    apply in_map_iff in Hnc as (nc0 & <- & _). simpl. apply replace_inf_col_free. }
  assert (Hnames : select_numeric (replace_inf (fill_numeric d)) = select_numeric d).
  { rewrite select_numeric_replace_inf. unfold fill_numeric. apply select_numeric_fold. }
  assert (Hcols : columns (fill_numeric (replace_inf (fill_numeric d)))
                  = columns (fill_numeric d)).
  { unfold fill_numeric at 1. rewrite (fold_touch _ _ _ fill_median_idem), Hnames.
    unfold replace_inf at 1. cbn [columns].
    unfold fill_numeric. rewrite (fold_touch _ _ _ fill_median_idem).
    now apply touch_clean. }
  assert (Hrows : nrows (fill_numeric (replace_inf (fill_numeric d)))
                  = nrows (fill_numeric d))
    by (rewrite fill_numeric_nrows; reflexivity).
  destruct (fill_numeric (replace_inf (fill_numeric d))) as [n1 cs1].
  destruct (fill_numeric d) as [n2 cs2]. simpl in *. congruence.
Qed.

(** X6: cleaning is idempotent on labelled tables.  When "Label" is a text
    column of a table whose columns have the length of the index, a second
    call of [handle_missing_values] on the table the first call returned
    drops no row, changes no cell and shows nothing. *)
Theorem handle_missing_values_idempotent (data : frame) (c : column) :
  rectangular data ->
  getcol "Label" data = Some c ->
  is_text c = true ->
  handle_missing_values (fst (handle_missing_values data))
  = (fst (handle_missing_values data), []).
Proof.
  intros Hr Hg Ht.
  destruct (cleaned_label_column data c Hg Ht) as (Hg' & Hcells & _).
  set (c' := keep_col (present_mask c) c) in *.
  assert (Ht' : is_text c' = true) by (unfold c'; destruct c; try discriminate; reflexivity).
  assert (Hall : Forall (fun o => is_present o = true) (text_cells c')).
  { rewrite Hcells. apply List.Forall_forall. intros o Ho.
    now apply filter_In in Ho as [_ Ho]. }
  assert (Hout : fst (handle_missing_values data)
                 = fill_numeric (replace_inf (labelled_rows data)))
    by apply handle_missing_values_result.
  assert (Hr' : rectangular (fst (handle_missing_values data))).
  { rewrite Hout. apply rectangular_imputed. now apply rectangular_labelled_rows. }
  set (out := fst (handle_missing_values data)) in *.
  rewrite (handle_missing_values_labelled out (getcol_in_colnames _ _ _ Hg')).
  f_equal. unfold dropna_subset. rewrite Hg'.
  rewrite (present_mask_all c' Ht' Hall), (rectangular_getcol _ _ _ Hr' Hg').
  rewrite (select_rows_all out Hr').
  rewrite Hout. apply imputed_again.
Qed.

Lemma handle_missing_values_idempotent_witness :
  let data := mkFrame 3 [("bytes", FloatCol W64 [Fin 5; PosInf; NaN]);
                         ("Label", ObjCol [Some "normal"; None; Some "dos"])] in
  handle_missing_values (fst (handle_missing_values data))
  = (fst (handle_missing_values data), []).
Proof.
  intros data.
  apply (handle_missing_values_idempotent data (ObjCol [Some "normal"; None; Some "dos"])).
  - repeat constructor.
  - reflexivity.
  - reflexivity.
Defined.

(** ** More on [optimize_memory_usage] *)

Lemma handle_missing_values_colnames data :
  colnames (fst (handle_missing_values data)) = colnames data.
Proof.
  rewrite handle_missing_values_result.
  unfold fill_numeric. rewrite colnames_fold_update.
  unfold colnames at 1, replace_inf. simpl. rewrite names_map_snd.
  apply colnames_labelled_rows.
Qed.

Lemma optimize_memory_usage_result L data :
  fst (optimize_memory_usage L data)
  = (let data1 := fst (handle_missing_values data) in
     let data2 := fold_left (fun d col => update_col (downcast_float L) col d)
                            (select_numeric data1) data1 in
     fold_left (fun d col => update_col astype_category col d)
               (select_object data2) data2) /\
  snd (optimize_memory_usage L data) = snd (handle_missing_values data).
Proof.
  unfold optimize_memory_usage, ui_bind, ui_ret.
  destruct (handle_missing_values data) as [d1 log]. simpl.
  split; [reflexivity|apply app_nil_r].
Qed.

Lemma astype_category_not_object c : is_object (astype_category c) = false.
Proof. now destruct c. Qed.

(** X7: after [optimize_memory_usage] no column that can be looked up is an
    object column any more: text is held as a category. *)
Theorem optimize_memory_usage_no_object (L : library) (data : frame)
    (name : string) (c : column) :
  getcol name (fst (optimize_memory_usage L data)) = Some c ->
  is_object c = false.
Proof.
  destruct (optimize_memory_usage_result L data) as [-> _]. cbv zeta.
  set (d2 := fold_left _ _ (fst (handle_missing_values data))).
  destruct (in_dec string_dec name (select_object d2)) as [Hin|Hnin].
  - rewrite (fold_update_in astype_category astype_category_idem) by assumption.
    destruct (getcol name d2) as [c0|]; [|discriminate].
    intros [= <-]. apply astype_category_not_object.
  - rewrite fold_update_notin by assumption. intros Hg.
    destruct (is_object c) eqn:E; [|reflexivity].
    exfalso. apply Hnin. eapply in_select_object; eassumption.
Qed.

Lemma optimize_memory_usage_no_object_witness :
  let data := mkFrame 2 [("proto", ObjCol [Some "tcp"; None]);
                         ("Label", ObjCol [Some "normal"; Some "dos"])] in
  getcol "proto" (fst (optimize_memory_usage demo_library data))
  = Some (CatCol [Some "tcp"; None]) /\
  is_object (CatCol [Some "tcp"; None]) = false.
Proof.
  intros data. split; [reflexivity|].
  exact (optimize_memory_usage_no_object demo_library data "proto"
           (CatCol [Some "tcp"; None]) eq_refl).
Defined.

Lemma downcast_float_text L c : is_numeric c = false -> downcast_float L c = c.
Proof. now destruct c. Qed.

(** A text column of the cleaned table, after the two conversion loops. *)
Lemma optimized_text_column (L : library) (data : frame) (name : string) (c : column) :
  getcol name (fst (handle_missing_values data)) = Some c ->
  is_text c = true ->
  getcol name (fst (optimize_memory_usage L data)) = Some (astype_category c).
Proof.
  intros Hg Ht.
  destruct (optimize_memory_usage_result L data) as [-> _]. cbv zeta.
  set (d1 := fst (handle_missing_values data)) in *.
  set (d2 := fold_left (fun d col => update_col (downcast_float L) col d)
                       (select_numeric d1) d1).
  assert (H2 : getcol name d2 = Some c).
  { apply fold_update_fixed; [|assumption].
    apply downcast_float_text. now apply text_not_numeric. }
  destruct c as [zs|w xs|os|os]; try discriminate.
  - rewrite (fold_update_in astype_category astype_category_idem).
    + now rewrite H2.
    + eapply in_select_object; [exact H2|reflexivity].
  - apply fold_update_fixed; [reflexivity|exact H2].
Qed.

(** X8: the conversions of [optimize_memory_usage] keep the text: a text
    column of the cleaned table comes back as a category column with the
    same cells, missing ones included. *)
Theorem optimize_memory_usage_keeps_text (L : library) (data : frame)
    (name : string) (c : column) :
  getcol name (fst (handle_missing_values data)) = Some c ->
  is_text c = true ->
  getcol name (fst (optimize_memory_usage L data)) = Some (CatCol (text_cells c)).
Proof.
  intros Hg Ht. rewrite (optimized_text_column L data name c Hg Ht).
  destruct c; try discriminate; reflexivity.
Qed.

Lemma optimize_memory_usage_keeps_text_witness :
  let data := mkFrame 2 [("proto", ObjCol [Some "tcp"; None]);
                         ("Label", ObjCol [Some "normal"; Some "dos"])] in
  getcol "proto" (fst (optimize_memory_usage demo_library data))
  = Some (CatCol [Some "tcp"; None]).
Proof.
  intros data.
  exact (optimize_memory_usage_keeps_text demo_library data "proto"
           (ObjCol [Some "tcp"; None]) eq_refl eq_refl).
Defined.

Lemma optimize_memory_usage_colnames L data :
  colnames (fst (optimize_memory_usage L data)) = colnames data.
Proof.
  destruct (optimize_memory_usage_result L data) as [-> _]. cbv zeta.
  rewrite !colnames_fold_update. apply handle_missing_values_colnames.
Qed.

(** ** More on [load_and_combine_data] *)

Lemma ui_map_silent {A B} (f : A -> ui B) (xs : list A) :
  (forall x, snd (f x) = []) ->
  ui_map f xs = (map (fun x => fst (f x)) xs, []).
Proof.
  intros Hf. induction xs as [|x xs IH]; simpl; [reflexivity|].
  unfold ui_bind. rewrite IH. specialize (Hf x).
  destruct (f x) as [b l]. simpl in *. subst l. reflexivity.
Qed.

Lemma load_chunks_run (L : library) (uploaded_files : list (list frame)) :
  load_chunks L uploaded_files
  = (map (fun chunk => fst (process_chunk L chunk)) (concat uploaded_files), []).
Proof. apply ui_map_silent. intros x. apply process_chunk_silent. Qed.

Lemma load_and_combine_data_silent_log (L : library) (uploaded_files : list (list frame)) :
  snd (load_and_combine_data L uploaded_files) = [].
Proof.
  unfold load_and_combine_data, ui_bind. now rewrite load_chunks_run.
Qed.

(** X9: ingestion never shows the missing-label error.  The chunks handed to
    [pd.concat] are the processed chunks in upload order, each of them has a
    "Label" column, and the log of [load_and_combine_data] is empty. *)
Theorem load_and_combine_data_silent (L : library) (uploaded_files : list (list frame)) :
  load_chunks L uploaded_files
  = (map (fun chunk => fst (process_chunk L chunk)) (concat uploaded_files), []) /\
  Forall (fun out => has_column "Label" out = true) (fst (load_chunks L uploaded_files)) /\
  snd (load_and_combine_data L uploaded_files) = [].
Proof.
  split; [apply load_chunks_run|]. split; [|apply load_and_combine_data_silent_log].
  rewrite load_chunks_run. simpl. apply List.Forall_forall. intros out Hout.
  apply in_map_iff in Hout as (chunk & <- & _).
  apply has_column_true. unfold process_chunk.
  rewrite optimize_memory_usage_colnames.
  apply has_column_true, normalize_label_has_label.
Qed.

Lemma assoc_rename old new cs :
  ~ In new (map fst cs) ->
  assoc_col new (map (fun nc : string * column =>
                        (if String.eqb (fst nc) old then new else fst nc, snd nc)) cs)
  = assoc_col old cs.
Proof.
  induction cs as [|[n c] cs IH]; simpl; intros Hn; [reflexivity|].
  destruct (String.eqb n old) eqn:E.
  - apply String.eqb_eq in E. subst n. now rewrite !String.eqb_refl.
  - rewrite (String.eqb_sym old n), E.
    destruct (String.eqb new n) eqn:E'.
    + apply String.eqb_eq in E'. subst n. exfalso. apply Hn. now left.
    + apply IH. intros H. apply Hn. now right.
Qed.

Lemma getcol_rename old new data :
  ~ In new (colnames data) ->
  getcol new (rename_column old new data) = getcol old data.
Proof. apply assoc_rename. Qed.

Lemma colnames_rename old new data :
  colnames (rename_column old new data)
  = map (fun n => if String.eqb n old then new else n) (colnames data).
Proof. unfold colnames, rename_column. simpl. now rewrite !map_map. Qed.

Lemma optimize_memory_usage_nrows L data :
  nrows (fst (optimize_memory_usage L data)) = nrows (fst (handle_missing_values data)).
Proof.
  destruct (optimize_memory_usage_result L data) as [-> _]. cbv zeta.
  now rewrite !fold_update_nrows.
Qed.

Lemma normalize_label_renames chunk old :
  old = "label" \/ (old = "Class" /\ ~ In "label" (map strip (colnames chunk))) ->
  In old (map strip (colnames chunk)) ->
  normalize_label chunk = rename_column old "Label" (strip_columns chunk).
Proof.
  intros Hold Hin. unfold normalize_label. cbv zeta.
  rewrite <- colnames_strip in Hin.
  destruct Hold as [->|[-> Hl]].
  - apply has_column_true in Hin. now rewrite Hin.
  - rewrite (has_column_false "label") by (now rewrite colnames_strip).
    apply has_column_true in Hin. now rewrite Hin.
Qed.

(** X10: a chunk whose column names are distinct once trimmed (Unicode white
    space included) and that brings its labels under the name "label", or
    under "Class" when there is no "label", keeps them: the chunk appended
    to the combined data has them in its "Label" column as a category, the
    rows without a label are gone, and no other column is renamed (with
    "label" present a column "Class" stays a feature). *)
Theorem load_keeps_given_labels (L : library) (chunk : frame) (old : string)
    (c : column) :
  List.NoDup (map strip (colnames chunk)) ->
  old = "label" \/ (old = "Class" /\ ~ In "label" (map strip (colnames chunk))) ->
  ~ In "Label" (map strip (colnames chunk)) ->
  getcol old (strip_columns chunk) = Some c ->
  is_text c = true ->
  getcol "Label" (fst (process_chunk L chunk))
  = Some (CatCol (List.filter is_present (text_cells c))) /\
  nrows (fst (process_chunk L chunk)) = length (List.filter is_present (text_cells c)) /\
  colnames (fst (process_chunk L chunk))
  = map (fun n => if String.eqb n old then "Label" else n) (map strip (colnames chunk)).
Proof.
  intros _ Hold HL Hg Ht.
  assert (Hin : In old (map strip (colnames chunk))).
  { rewrite <- colnames_strip. apply has_column_true.
    eapply getcol_in_colnames. eassumption. }
  unfold process_chunk. rewrite (normalize_label_renames chunk old Hold Hin).
  set (d := rename_column old "Label" (strip_columns chunk)).
  assert (Hd : getcol "Label" d = Some c).
  { unfold d. rewrite getcol_rename; [assumption|now rewrite colnames_strip]. }
  destruct (cleaned_label_column d c Hd Ht) as (Hg' & Hcells & Hn).
  assert (Ht' : is_text (keep_col (present_mask c) c) = true)
    by (destruct c; try discriminate; reflexivity).
  split; [|split].
  - rewrite (optimized_text_column L d "Label" _ Hg' Ht').
    rewrite <- Hcells. destruct c; try discriminate; reflexivity.
  - now rewrite optimize_memory_usage_nrows, Hn.
  - rewrite optimize_memory_usage_colnames. unfold d.
    now rewrite colnames_rename, colnames_strip.
Qed.

Lemma load_keeps_given_labels_witness :
  let chunk := mkFrame 3 [("bytes", IntCol [5; 6; 7]%Z);
                          (String.append no_break_space "Class",
                           ObjCol [Some "normal"; None; Some "dos"])] in
  getcol "Label" (fst (process_chunk demo_library chunk))
  = Some (CatCol [Some "normal"; Some "dos"]) /\
  nrows (fst (process_chunk demo_library chunk)) = 2%nat /\
  colnames (fst (process_chunk demo_library chunk)) = ["bytes"; "Label"].
Proof.
  intros chunk.
  apply (load_keeps_given_labels demo_library chunk "Class"
           (ObjCol [Some "normal"; None; Some "dos"])).
  - cbv. distinct_names.
  - right. split; [reflexivity|]. simpl. intros [H|[H|[]]]; discriminate H.
  - simpl. intros [H|[H|[]]]; discriminate H.
  - reflexivity.
  - reflexivity.
Defined.

Lemma names_set_assoc_fresh name c cs :
  ~ In name (map fst cs) -> map fst (set_assoc name c cs) = map fst cs ++ [name].
Proof.
  induction cs as [|[n c'] cs IH]; simpl; intros Hn; [reflexivity|].
  destruct (String.eqb name n) eqn:E.
  - apply String.eqb_eq in E. subst n. exfalso. apply Hn. now left.
  - simpl. rewrite IH; [reflexivity|]. intros H. apply Hn. now right.
Qed.

Lemma colnames_set_column_fresh name c data :
  ~ In name (colnames data) -> colnames (set_column name c data) = colnames data ++ [name].
Proof. apply names_set_assoc_fresh. Qed.

Lemma string_leb_refl s : String.leb s s = true.
Proof. destruct (String.leb_total s s); assumption. Qed.

Lemma text_leb_refl o : text_leb o o = true.
Proof. destruct o; simpl; [apply string_leb_refl|reflexivity]. Qed.

Lemma unique_cons {A} (leb : A -> A -> bool) x l :
  unique leb (x :: l) = insert_unique leb x (unique leb l).
Proof. reflexivity. Qed.

Lemma unique_constant (o : option string) n :
  unique text_leb (repeat o (S n)) = [o].
Proof.
  induction n as [|n IH]; [reflexivity|].
  change (repeat o (S (S n))) with (o :: repeat o (S n)).
  rewrite unique_cons, IH. simpl. now rewrite text_leb_refl.
Qed.

Lemma encode_constant (o : option string) n :
  encode text_leb (repeat o n) = repeat 0%Z n.
Proof.
  destruct n as [|n]; [reflexivity|].
  unfold encode. rewrite unique_constant, map_repeat. simpl index_of.
  now rewrite text_leb_refl.
Qed.

(** X11: a chunk whose column names are distinct once trimmed (Unicode white
    space included), none of them "label", "Class" or "Label", gets a new
    last column "Label" that reads "normal" in every row; the other columns
    keep their trimmed names, no row is dropped, and the label encoder gives
    that column the single code 0. *)
Theorem load_defaults_label_to_normal (L : library) (chunk : frame) :
  List.NoDup (map strip (colnames chunk)) ->
  ~ In "label" (map strip (colnames chunk)) ->
  ~ In "Class" (map strip (colnames chunk)) ->
  ~ In "Label" (map strip (colnames chunk)) ->
  exists y,
    getcol "Label" (fst (process_chunk L chunk)) = Some y /\
    y = CatCol (repeat (Some "normal") (nrows chunk)) /\
    fit_transform y = repeat 0%Z (nrows chunk) /\
    nrows (fst (process_chunk L chunk)) = nrows chunk /\
    colnames (fst (process_chunk L chunk)) = map strip (colnames chunk) ++ ["Label"].
Proof.
  intros _ Hl Hc HL.
  exists (CatCol (repeat (Some "normal") (nrows chunk))).
  unfold process_chunk.
  assert (E : normalize_label chunk = setitem_scalar "Label" "normal" (strip_columns chunk)).
  { unfold normalize_label. cbv zeta.
    rewrite (has_column_false "label") by (now rewrite colnames_strip).
    rewrite (has_column_false "Class") by (now rewrite colnames_strip).
    reflexivity. }
  rewrite E. set (d := setitem_scalar "Label" "normal" (strip_columns chunk)).
  assert (Hg : getcol "Label" d = Some (ObjCol (repeat (Some "normal") (nrows d))))
    by apply getcol_set_column.
  destruct (optimize_constant_label L d Hg) as (_ & H1 & H2 & H3).
  change (nrows d) with (nrows chunk) in H1, H2.
  split; [exact H1|]. split; [reflexivity|]. split; [apply encode_constant|].
  split; [exact H2|].
  rewrite H3. unfold d, setitem_scalar.
  rewrite colnames_set_column_fresh; rewrite colnames_strip; [reflexivity|assumption].
Qed.

Lemma load_defaults_label_to_normal_witness :
  let chunk := mkFrame 2 [(String.append "duration" no_break_space, IntCol [5; 6]%Z);
                          ("proto", ObjCol [Some "tcp"; None])] in
  exists y,
    getcol "Label" (fst (process_chunk demo_library chunk)) = Some y /\
    y = CatCol [Some "normal"; Some "normal"] /\
    fit_transform y = [0; 0]%Z /\
    nrows (fst (process_chunk demo_library chunk)) = 2%nat /\
    colnames (fst (process_chunk demo_library chunk)) = ["duration"; "proto"; "Label"].
Proof.
  intros chunk.
  apply (load_defaults_label_to_normal demo_library chunk);
    [cbv; distinct_names|..]; cbv; intros [H|[H|[]]]; discriminate H.
Defined.

(** ** The label encoder *)

Section Encoder.
Variable A : Type.
Variable leb : A -> A -> bool.
Hypothesis leb_total : forall a b, leb a b = true \/ leb b a = true.
Hypothesis leb_antisym : forall a b, leb a b = true -> leb b a = true -> a = b.
Hypothesis leb_trans : forall a b c, leb a b = true -> leb b c = true -> leb a c = true.

(** Strictly below. *)
Let below (a b : A) : Prop := leb b a = false.

Lemma leb_refl_gen a : leb a a = true.
Proof. destruct (leb_total a a); assumption. Qed.

Lemma insert_unique_In_gen x y l :
  In y (insert_unique leb x l) <-> y = x \/ In y l.
Proof.
  induction l as [|z l IH]; simpl; [intuition|].
  destruct (leb x z) eqn:E1.
  - destruct (leb z x) eqn:E2; simpl.
    + assert (x = z) by now apply leb_antisym. subst. intuition.
    + intuition.
  - simpl. rewrite IH. intuition.
Qed.

Lemma unique_In_gen y l : In y (unique leb l) <-> In y l.
Proof.
  induction l as [|x l IH]; simpl; [reflexivity|].
  rewrite insert_unique_In_gen, IH. intuition.
Qed.

Lemma insert_unique_sorted_gen x l :
  StronglySorted below l -> StronglySorted below (insert_unique leb x l).
Proof.
  induction 1 as [|z l Hs IH Hz]; simpl.
  - repeat constructor.
  - destruct (leb x z) eqn:E1.
    + destruct (leb z x) eqn:E2.
      * now constructor.
      * constructor; [now constructor|].
        constructor; [exact E2|].
        rewrite List.Forall_forall in Hz |- *. intros w Hw. specialize (Hz w Hw).
        unfold below in *. destruct (leb w x) eqn:E3; [|reflexivity].
        rewrite (leb_trans w x z E3 E1) in Hz. discriminate Hz.
    + constructor; [assumption|].
      rewrite List.Forall_forall in Hz |- *. intros w Hw.
      apply insert_unique_In_gen in Hw as [->|Hw]; [exact E1|auto].
Qed.

Lemma unique_sorted_gen l : StronglySorted below (unique leb l).
Proof.
  induction l as [|x l IH]; simpl; [constructor|].
  now apply insert_unique_sorted_gen.
Qed.

Lemma sorted_NoDup_gen l : StronglySorted below l -> List.NoDup l.
Proof.
  induction 1 as [|z l Hs IH Hz]; constructor; [|assumption].
  intros Hin. rewrite List.Forall_forall in Hz. specialize (Hz z Hin).
  unfold below in Hz. rewrite leb_refl_gen in Hz. discriminate Hz.
Qed.

Lemma unique_NoDup_gen l : List.NoDup (unique leb l).
Proof. apply sorted_NoDup_gen, unique_sorted_gen. Qed.

(** The position found for a member is the position of that member. *)
Lemma index_of_lookup x classes :
  In x classes ->
  (index_of leb x classes < length classes)%nat /\
  classes !! index_of leb x classes = Some x.
Proof.
  induction classes as [|y classes IH]; intros Hin; [destruct Hin|].
  simpl. destruct (leb x y && leb y x) eqn:E.
  - apply andb_true_iff in E as [E1 E2].
    rewrite (leb_antisym x y E1 E2). split; [lia|reflexivity].
  - destruct Hin as [->|Hin].
    + rewrite leb_refl_gen in E. discriminate E.
    + destruct (IH Hin) as [H1 H2]. split; [lia|exact H2].
Qed.

(** Without repetition, the member at a position is found at that position. *)
Lemma index_of_position classes j x :
  List.NoDup classes -> classes !! j = Some x -> index_of leb x classes = j.
Proof.
  intros Hnd. revert j. induction Hnd as [|y classes Hnotin Hnd IH]; intros j Hj;
    [destruct j; discriminate Hj|].
  simpl. destruct j as [|j]; simpl in Hj.
  - injection Hj as ->. now rewrite leb_refl_gen.
  - destruct (leb x y && leb y x) eqn:E.
    + apply andb_true_iff in E as [E1 E2].
      rewrite (leb_antisym x y E1 E2) in Hj.
      exfalso. apply Hnotin. apply list_elem_of_In. eapply list_elem_of_lookup_2.
      eassumption.
    + f_equal. now apply IH.
Qed.

(** Every label gets a code below the number of classes, and the class at
    that position is the label. *)
Lemma encode_decode xs i x :
  xs !! i = Some x ->
  exists code,
    encode leb xs !! i = Some (Z.of_nat code) /\
    (code < length (unique leb xs))%nat /\
    unique leb xs !! code = Some x.
Proof.
  intros Hi. exists (index_of leb x (unique leb xs)).
  assert (Hin : In x (unique leb xs)).
  { apply unique_In_gen. apply list_elem_of_In. eapply list_elem_of_lookup_2.
    eassumption. }
  destruct (index_of_lookup x _ Hin) as [H1 H2].
  split; [|split; assumption].
  unfold encode. now apply (lookup_map (fun x => Z.of_nat (index_of leb x (unique leb xs)))).
Qed.

(** Every position of the classes is the code of some label. *)
Lemma encode_onto xs j :
  (j < length (unique leb xs))%nat ->
  exists i, encode leb xs !! i = Some (Z.of_nat j).
Proof.
  intros Hj. destruct (lookup_lt_is_Some_2 (unique leb xs) j Hj) as [x Hx].
  assert (Hin : In x xs).
  { apply unique_In_gen. apply list_elem_of_In. eapply list_elem_of_lookup_2.
    eassumption. }
  apply list_elem_of_In, list_elem_of_lookup in Hin as [i Hi].
  exists i. unfold encode.
  rewrite (lookup_map (fun x => Z.of_nat (index_of leb x (unique leb xs))) _ _ _ Hi).
  now rewrite (index_of_position _ j x (unique_NoDup_gen xs) Hx).
Qed.
Lemma encode_range xs :
  Forall (fun c => (0 <= c < Z.of_nat (length (unique leb xs)))%Z) (encode leb xs).
Proof.
  unfold encode. apply List.Forall_forall. intros c Hc.
  apply in_map_iff in Hc as (x & <- & Hx).
  destruct (index_of_lookup x (unique leb xs)) as [H _]; [now apply unique_In_gen|].
  lia.
Qed.
End Encoder.

Lemma ascii_compare_refl a : Ascii.compare a a = Eq.
Proof. unfold Ascii.compare. apply N.compare_refl. Qed.

Lemma ascii_compare_lt_trans a b c :
  Ascii.compare a b = Lt -> Ascii.compare b c = Lt -> Ascii.compare a c = Lt.
Proof.
  unfold Ascii.compare. rewrite !N.compare_lt_iff. apply N.lt_trans.
Qed.

Lemma string_leb_trans a b c :
  String.leb a b = true -> String.leb b c = true -> String.leb a c = true.
Proof.
  unfold String.leb. revert b c.
  induction a as [|x a IH]; intros [|y b] [|z c]; simpl; try congruence.
  destruct (Ascii.compare x y) eqn:Exy; try discriminate;
    destruct (Ascii.compare y z) eqn:Eyz; try discriminate.
  - apply Ascii.compare_eq_iff in Exy, Eyz. subst. rewrite ascii_compare_refl. apply IH.
  - apply Ascii.compare_eq_iff in Exy. subst. now rewrite Eyz.
  - apply Ascii.compare_eq_iff in Eyz. subst. now rewrite Exy.
  - now rewrite (ascii_compare_lt_trans x y z Exy Eyz).
Qed.

Lemma text_leb_total a b : text_leb a b = true \/ text_leb b a = true.
Proof. destruct a, b; simpl; auto. apply String.leb_total. Qed.

Lemma text_leb_antisym a b : text_leb a b = true -> text_leb b a = true -> a = b.
Proof.
  destruct a, b; simpl; try discriminate; auto.
  intros H1 H2. f_equal. now apply String.leb_antisym.
Qed.

Lemma text_leb_trans a b c :
  text_leb a b = true -> text_leb b c = true -> text_leb a c = true.
Proof.
  destruct a, b, c; simpl; try discriminate; auto. apply string_leb_trans.
Qed.

Lemma text_classes y :
  is_text y = true -> text_cells (classes_of y) = unique text_leb (text_cells y).
Proof. destruct y; try discriminate; reflexivity. Qed.

Lemma text_codes y :
  is_text y = true -> fit_transform y = encode text_leb (text_cells y).
Proof. destruct y; try discriminate; reflexivity. Qed.

(** X12: encoding can be undone.  For a text label column, the code of
    every row is a position in the classes of the fitted encoder, and the
    class at that position is the label of the row. *)
Theorem fit_transform_decodes (y : column) (i : nat) (label : option string) :
  is_text y = true ->
  text_cells y !! i = Some label ->
  exists code,
    fit_transform y !! i = Some (Z.of_nat code) /\
    (code < length (text_cells (classes_of y)))%nat /\
    text_cells (classes_of y) !! code = Some label.
Proof.
  intros Ht Hi. rewrite (text_classes y Ht), (text_codes y Ht).
  apply (encode_decode _ text_leb text_leb_total text_leb_antisym); assumption.
Qed.

Lemma fit_transform_decodes_witness :
  exists code,
    fit_transform (CatCol [Some "normal"; Some "dos"; Some "normal"]) !! 1%nat
    = Some (Z.of_nat code) /\
    (code < 2)%nat /\
    [Some "dos"; Some "normal"] !! code = Some (Some "dos").
Proof.
  exact (fit_transform_decodes (CatCol [Some "normal"; Some "dos"; Some "normal"])
           1 (Some "dos") eq_refl eq_refl).
Defined.

(** X13: two rows get the same code exactly when they have the same
    label. *)
Theorem fit_transform_injective (y : column) (i j : nat)
    (a b : option string) (ca cb : Z) :
  is_text y = true ->
  text_cells y !! i = Some a -> text_cells y !! j = Some b ->
  fit_transform y !! i = Some ca -> fit_transform y !! j = Some cb ->
  (ca = cb <-> a = b).
Proof.
  intros Ht Ha Hb Hca Hcb.
  rewrite (text_codes y Ht) in Hca, Hcb.
  destruct (encode_decode _ text_leb text_leb_total text_leb_antisym _ i a Ha)
    as (na & Ea & _ & Da).
  destruct (encode_decode _ text_leb text_leb_total text_leb_antisym _ j b Hb)
    as (nb & Eb & _ & Db).
  rewrite Hca in Ea. rewrite Hcb in Eb.
  injection Ea as ->. injection Eb as ->. split.
  - intros E. apply Nat2Z.inj in E. subst nb. congruence.
  - intros ->. unfold encode in Hca, Hcb.
    rewrite (lookup_map _ _ _ _ Ha) in Hca. rewrite (lookup_map _ _ _ _ Hb) in Hcb.
    congruence.
Qed.

Lemma fit_transform_injective_witness :
  ((1 = 0)%Z <-> Some "normal" = Some "dos").
Proof.
  exact (fit_transform_injective (CatCol [Some "normal"; Some "dos"; Some "normal"])
           0 1 (Some "normal") (Some "dos") 1 0 eq_refl eq_refl eq_refl eq_refl eq_refl).
Defined.

(** X14: the codes are a contiguous range.  The classes of a text label
    column are its distinct labels in increasing order of code points (a
    missing label last), and the codes are exactly the positions 0 to k-1 of
    the k classes: each code is in that range and each position is the code
    of some row. *)
Theorem fit_transform_contiguous (y : column) :
  is_text y = true ->
  let classes := text_cells (classes_of y) in
  StronglySorted (fun a b => text_leb b a = false) classes /\
  List.NoDup classes /\
  (forall label, In label classes <-> In label (text_cells y)) /\
  Forall (fun code => (0 <= code < Z.of_nat (length classes))%Z) (fit_transform y) /\
  (forall j, (j < length classes)%nat ->
     exists i, fit_transform y !! i = Some (Z.of_nat j)).
Proof.
  intros Ht. cbv zeta. rewrite (text_classes y Ht), (text_codes y Ht).
  split; [|split; [|split; [|split]]].
  - apply (unique_sorted_gen _ text_leb text_leb_antisym text_leb_trans).
  - apply (unique_NoDup_gen _ text_leb text_leb_total text_leb_antisym text_leb_trans).
  - intros label. apply (unique_In_gen _ text_leb text_leb_antisym).
  - apply (encode_range _ text_leb text_leb_total text_leb_antisym).
  - intros j Hj.
    now apply (encode_onto _ text_leb text_leb_total text_leb_antisym text_leb_trans).
Qed.

Lemma fit_transform_contiguous_witness :
  let y := CatCol [Some "normal"; Some "dos"; None; Some "normal"] in
  let classes := [Some "dos"; Some "normal"; None] in
  StronglySorted (fun a b => text_leb b a = false) classes /\
  List.NoDup classes /\
  (forall label, In label classes <-> In label (text_cells y)) /\
  Forall (fun code => (0 <= code < 3)%Z) (fit_transform y) /\
  (forall j, (j < 3)%nat -> exists i, fit_transform y !! i = Some (Z.of_nat j)).
Proof.
  intros y classes. exact (fit_transform_contiguous y eq_refl).
Defined.

(** ** Encoding codes again *)






Section Recode.
Variable A : Type.
Variable leb : A -> A -> bool.
Hypothesis leb_total : forall a b, leb a b = true \/ leb b a = true.
Hypothesis leb_antisym : forall a b, leb a b = true -> leb b a = true -> a = b.
Hypothesis leb_trans : forall a b c, leb a b = true -> leb b c = true -> leb a c = true.


End Recode.


(** ** More on [preprocess_data] *)








(** X16: on a table without a "Label" column [preprocess_data] raises
    [KeyError] at its first line: the table is not touched and nothing is
    printed. *)
Theorem preprocess_data_without_label (L : library) (l : nat) (h : gmap nat frame)
    (d : frame) :
  h !! l = Some d ->
  has_column "Label" d = false ->
  preprocess_data L l h = (Raise (KeyError "Label"), h, []).
Proof.
  intros Hl Hno.
  assert (Hg : getcol "Label" d = None).
  { destruct (getcol "Label" d) as [c|] eqn:E; [|reflexivity].
    apply getcol_in_colnames in E. congruence. }
  unfold preprocess_data, prog_bind, deref, lift_result, getitem.
  rewrite Hl, Hg. reflexivity.
Qed.

Lemma preprocess_data_without_label_witness :
  let d := mkFrame 2 [("bytes", IntCol [1; 2]%Z)] in
  preprocess_data demo_library 0 {[ 0%nat := d ]}
  = (Raise (KeyError "Label"), {[ 0%nat := d ]}, []).
Proof.
  intros d.
  exact (preprocess_data_without_label demo_library 0 {[ 0%nat := d ]} d eq_refl eq_refl).
Defined.



(** ** More on [evaluate_model] *)

Lemma correct_rows_cons {R : Type} (model : R -> Z) x X t y :
  correct_rows model (x :: X) (t :: y)
  = ((if Z.eqb (model x) t then 1 else 0) + correct_rows model X y)%nat.
Proof. unfold correct_rows. simpl. destruct (Z.eqb (model x) t); reflexivity. Qed.

Lemma correct_rows_le {R : Type} (model : R -> Z) X y :
  (correct_rows model X y <= length y)%nat.
Proof.
  unfold correct_rows. etransitivity; [apply filter_length_le|].
  rewrite length_combine. lia.
Qed.

Lemma correct_rows_all {R : Type} (model : R -> Z) X y :
  length X = length y ->
  (correct_rows model X y = length y <-> map model X = y).
Proof.
  revert y. induction X as [|x X IH]; intros [|t y] Hlen; try discriminate.
  - split; reflexivity.
  - rewrite correct_rows_cons. simpl. injection Hlen as Hlen.
    pose proof (correct_rows_le model X y) as Hle.
    destruct (Z.eqb (model x) t) eqn:E.
    + apply Z.eqb_eq in E. rewrite E. split.
      * intros H. f_equal. apply IH; [assumption|lia].
      * intros [= H]. f_equal. now apply IH.
    + apply Z.eqb_neq in E. split; [intros H; simpl in H; lia|].
      intros [= H _]. contradiction.
Qed.

Lemma accuracy_score_value {R : Type} (model : R -> Z) X y :
  length X = length y -> X <> [] ->
  accuracy_score y (map model X)
  = Ok (Fin (inject_Z (Z.of_nat (correct_rows model X y))
             / inject_Z (Z.of_nat (length y)))).
Proof.
  intros Hlen Hne. unfold accuracy_score.
  rewrite length_map, Hlen, Nat.eqb_refl. f_equal. unfold average.
  destruct (map _ (combine y (map model X))) as [|b bs] eqn:E.
  - apply (f_equal (@length bool)) in E.
    rewrite length_map, length_combine_same in E by (now rewrite length_map).
    destruct X; [congruence|]. simpl in Hlen. rewrite <- Hlen in E. discriminate E.
  - rewrite <- E, score_sum, length_map, length_combine_same
      by (now rewrite length_map).
    reflexivity.
Qed.

Lemma ratio_bounds (c n : nat) :
  (c <= n)%nat -> (0 < n)%nat ->
  let q := (inject_Z (Z.of_nat c) / inject_Z (Z.of_nat n))%Q in
  (0 <= q)%Q /\ (q <= 1)%Q /\ (q == 1 <-> c = n)%Q.
Proof.
  intros Hc Hn q.
  assert (Hpos : (0 < inject_Z (Z.of_nat n))%Q)
    by (change 0%Q with (inject_Z 0); rewrite <- Zlt_Qlt; lia).
  assert (Hc0 : (0 <= inject_Z (Z.of_nat c))%Q)
    by (change 0%Q with (inject_Z 0); rewrite <- Zle_Qle; lia).
  assert (Hcn : (inject_Z (Z.of_nat c) <= inject_Z (Z.of_nat n))%Q)
    by (rewrite <- Zle_Qle; lia).
  assert (Hnz : ~ (inject_Z (Z.of_nat n) == 0)%Q)
    by (intros E; rewrite E in Hpos; now apply Qlt_irrefl in Hpos).
  split; [|split].
  - apply Qle_shift_div_l; [assumption|]. now rewrite Qmult_0_l.
  - apply Qle_shift_div_r; [assumption|]. now rewrite Qmult_1_l.
  - split.
    + intros E. unfold q in E.
      assert (E' : (inject_Z (Z.of_nat c) == inject_Z (Z.of_nat n))%Q).
      { rewrite <- (Qmult_div_r (inject_Z (Z.of_nat c)) (inject_Z (Z.of_nat n)) Hnz).
        rewrite E. apply Qmult_1_r. }
      apply (proj1 (inject_Z_injective _ _)) in E'. lia.
    + intros ->. unfold q. unfold Qdiv. now apply Qmult_inv_r.
Qed.

(** X18: the accuracy shown is a fraction.  On a non-empty test partition
    the number [evaluate_model] hands to the display lies between 0 and 1,
    and it is 1 exactly when every row is predicted correctly. *)
Theorem evaluate_model_accuracy_bounds {R : Type} (model : R -> Z)
    (X_test : list R) (y_test : list Z) (h : gmap nat frame) :
  length X_test = length y_test ->
  X_test <> [] ->
  exists log q,
    evaluate_model model X_test y_test h = (Ok tt, h, log) /\
    In (StWriteAccuracy (Fin q)) log /\
    (0 <= q)%Q /\ (q <= 1)%Q /\
    ((q == 1)%Q <-> map model X_test = y_test).
Proof.
  intros Hlen Hne.
  destruct (evaluate_model_run model X_test y_test h Hlen) as (acc & cm & Ha & _ & Hrun).
  rewrite (accuracy_score_value model X_test y_test Hlen Hne) in Ha.
  injection Ha as <-.
  destruct (ratio_bounds (correct_rows model X_test y_test) (length y_test))
    as (H0 & H1 & H2).
  - apply correct_rows_le.
  - destruct X_test; [congruence|]. simpl in Hlen. lia.
  - eexists. eexists. split; [exact Hrun|].
    split; [simpl; auto|]. split; [exact H0|]. split; [exact H1|].
    rewrite H2. now apply correct_rows_all.
Qed.

Lemma evaluate_model_accuracy_bounds_witness :
  let model := fun x : Z => if Z.ltb x 10 then 0%Z else 1%Z in
  exists log q,
    evaluate_model model [3; 50; 7]%Z [0; 1; 1]%Z (∅ : gmap nat frame)
    = (Ok tt, ∅, log) /\
    In (StWriteAccuracy (Fin q)) log /\
    (0 <= q)%Q /\ (q <= 1)%Q /\
    ((q == 1)%Q <-> [0; 1; 0]%Z = [0; 1; 1]%Z).
Proof.
  intros model.
  apply (evaluate_model_accuracy_bounds model [3; 50; 7]%Z [0; 1; 1]%Z ∅).
  - reflexivity.
  - discriminate.
Defined.

(** X19: when the test rows and the true labels differ in number,
    [evaluate_model] raises [ValueError] from the accuracy computation, before
    anything is shown. *)
Theorem evaluate_model_inconsistent_lengths {R : Type} (model : R -> Z)
    (X_test : list R) (y_test : list Z) (h : gmap nat frame) :
  length X_test <> length y_test ->
  evaluate_model model X_test y_test h = (Raise inconsistent_lengths, h, []).
Proof.
  intros Hne. unfold evaluate_model, prog_bind, lift_result, accuracy_score.
  rewrite length_map.
  destruct (Nat.eqb (length y_test) (length X_test)) eqn:E; [|reflexivity].
  apply Nat.eqb_eq in E. congruence.
Qed.

Lemma evaluate_model_inconsistent_lengths_witness :
  evaluate_model (fun _ : Z => 0%Z) [3; 50]%Z [0]%Z (∅ : gmap nat frame)
  = (Raise inconsistent_lengths, ∅, []).
Proof.
  apply (evaluate_model_inconsistent_lengths (fun _ : Z => 0%Z) [3; 50]%Z [0]%Z ∅).
  simpl. lia.
Defined.

(** ** Trace and total of the confusion matrix *)

Lemma indicator_sum (v : Z) (labels : list Z) :
  List.NoDup labels -> In v labels ->
  list_sum (map (fun a => if Z.eqb v a then 1 else 0)%nat labels) = 1%nat.
Proof.
  induction 1 as [|b labels Hnotin Hnd IH]; intros Hin; [destruct Hin|].
  simpl. destruct Hin as [->|Hin].
  - rewrite Z.eqb_refl. rewrite list_sum_map_zero; [reflexivity|].
    intros a Ha. destruct (Z.eqb v a) eqn:E; [|reflexivity].
    apply Z.eqb_eq in E. subst a. contradiction.
  - destruct (Z.eqb v b) eqn:E.
    + apply Z.eqb_eq in E. subst b. contradiction.
    + now rewrite IH.
Qed.

(** Counting by class and adding up counts everything once. *)
Lemma class_sum {T : Type} (key : T -> Z) (P : T -> bool) (labels : list Z) (l : list T) :
  List.NoDup labels ->
  (forall x, In x l -> P x = true -> In (key x) labels) ->
  list_sum (map (fun a => length (List.filter (fun x => P x && Z.eqb (key x) a) l)) labels)
  = length (List.filter P l).
Proof.
  intros Hnd. induction l as [|x l IH]; intros Hin.
  - apply list_sum_map_zero. reflexivity.
  - rewrite (map_ext _ (fun a => ((if P x && Z.eqb (key x) a then 1 else 0)
                                  + length (List.filter
                                              (fun x => P x && Z.eqb (key x) a) l))%nat)).
    + rewrite list_sum_map_add, IH by (intros; apply Hin; auto using in_cons).
      simpl. destruct (P x) eqn:E; simpl.
      * rewrite indicator_sum; [reflexivity|assumption|].
        apply Hin; [now left|assumption].
      * rewrite list_sum_map_zero; reflexivity.
    + intros a. simpl. destruct (P x && Z.eqb (key x) a); reflexivity.
Qed.

Lemma trace_from_diagonal {T : Type} (g : T -> T -> nat) (pre suf : list T) :
  trace_from (length pre) (map (fun a => map (g a) (pre ++ suf)) suf)
  = list_sum (map (fun a => g a a) suf).
Proof.
  revert pre. induction suf as [|a suf IH]; intros pre; simpl; [reflexivity|].
  f_equal.
  - rewrite <- (length_map (g a) pre), map_app, app_nth2, Nat.sub_diag by lia.
    reflexivity.
  - specialize (IH (pre ++ [a])). rewrite length_app in IH. simpl in IH.
    rewrite Nat.add_1_r in IH. rewrite <- IH.
    f_equal. apply map_ext. intros b. now rewrite <- app_assoc.
Qed.

Lemma confusion_matrix_sums (y_true y_pred : list Z) (cm : list (list nat)) :
  confusion_matrix y_true y_pred = Ok cm ->
  matrix_total cm = length (combine y_true y_pred) /\
  matrix_trace cm
  = length (List.filter (fun tp => Z.eqb (fst tp) (snd tp)) (combine y_true y_pred)).
Proof.
  unfold confusion_matrix.
  destruct (Nat.eqb (length y_true) (length y_pred)); [|discriminate].
  intros [= <-].
  set (labels := matrix_labels y_true y_pred). set (pairs := combine y_true y_pred).
  assert (Hnd : List.NoDup labels) by apply matrix_labels_NoDup.
  assert (Hfst : forall tp, In tp pairs -> In (fst tp) labels).
  { intros [t p] Htp. apply matrix_labels_In. left. eapply in_combine_l. exact Htp. }
  assert (Hsnd : forall tp, In tp pairs -> In (snd tp) labels).
  { intros tp Htp. apply matrix_labels_In. right. eapply in_combine_snd. exact Htp. }
  split.
  - unfold matrix_total. rewrite map_map.
    rewrite (map_ext _ (fun a => length (List.filter
               (fun tp => true && Z.eqb (fst tp) a) pairs)))
      by (intros a; now apply row_sum_pairs).
    rewrite (class_sum fst (fun _ => true) labels pairs Hnd) by auto.
    clear. induction pairs as [|tp pairs IH]; simpl; [reflexivity|]. now rewrite IH.
  - unfold matrix_trace.
    pose proof (trace_from_diagonal (fun a b => count_pair a b pairs) [] labels) as Hd.
    simpl in Hd. rewrite Hd. clear Hd.
    rewrite <- (class_sum fst (fun tp => Z.eqb (fst tp) (snd tp)) labels pairs Hnd)
      by auto.
    f_equal. apply map_ext. intros a. unfold count_pair. f_equal.
    apply filter_ext. intros [t p]. simpl.
    destruct (Z.eqb t p) eqn:E1.
    + apply Z.eqb_eq in E1. subst p. now destruct (Z.eqb t a).
    + destruct (Z.eqb t a) eqn:E2; [|reflexivity]. apply Z.eqb_eq in E2. subst a.
      simpl. rewrite (Z.eqb_sym p t), E1. reflexivity.
Qed.

Lemma equal_pairs_correct {R : Type} (model : R -> Z) X y :
  length (List.filter (fun tp => Z.eqb (fst tp) (snd tp)) (combine y (map model X)))
  = correct_rows model X y.
Proof.
  unfold correct_rows. revert y.
  induction X as [|x X IH]; intros [|t y]; try reflexivity.
  simpl. rewrite (Z.eqb_sym t (model x)).
  destruct (Z.eqb (model x) t); simpl; now rewrite IH.
Qed.

(** X20: the matrix and the accuracy agree.  The entries of the matrix
    [evaluate_model] shows add up to the number of test rows, and its
    diagonal adds up to the number of rows predicted correctly: the accuracy
    is the trace over the total. *)
Theorem evaluate_model_matrix_totals {R : Type} (model : R -> Z)
    (X_test : list R) (y_test : list Z) (h : gmap nat frame) :
  length X_test = length y_test ->
  exists log cm,
    evaluate_model model X_test y_test h = (Ok tt, h, log) /\
    In (StWriteMatrix cm) log /\
    matrix_total cm = length y_test /\
    matrix_trace cm = correct_rows model X_test y_test.
Proof.
  intros Hlen.
  destruct (evaluate_model_run model X_test y_test h Hlen) as (acc & cm & _ & Hcm & Hrun).
  destruct (confusion_matrix_sums _ _ _ Hcm) as [Ht Hd].
  eexists. exists cm. split; [exact Hrun|]. split; [simpl; auto 10|]. split.
  - rewrite Ht. apply length_combine_same. now rewrite length_map.
  - rewrite Hd. apply equal_pairs_correct.
Qed.

Lemma evaluate_model_matrix_totals_witness :
  let model := fun x : Z => if Z.ltb x 10 then 0%Z else 1%Z in
  exists log cm,
    evaluate_model model [3; 50; 7]%Z [0; 1; 1]%Z (∅ : gmap nat frame)
    = (Ok tt, ∅, log) /\
    In (StWriteMatrix cm) log /\
    matrix_total cm = 3%nat /\
    matrix_trace cm = 2%nat.
Proof.
  intros model.
  exact (evaluate_model_matrix_totals model [3; 50; 7]%Z [0; 1; 1]%Z ∅ eq_refl).
Defined.

(** ** More on the anomaly button *)

(** X21: more verdicts than rows.  When the test partition is longer than
    the table, the list built in line 147 gets no padding, the column
    assignment raises [ValueError], the table stays as it was and nothing is
    shown. *)
Theorem detect_anomalies_too_many_rows {R : Type} (det : R -> Z) (X_test : list R)
    (l : nat) (h : gmap nat frame) (d : frame) :
  h !! l = Some d ->
  (nrows d < length X_test)%nat ->
  detect_anomalies det X_test l h
  = (Raise (ValueError "Length of values does not match length of index"), h, []).
Proof.
  intros Hl Hlen.
  unfold detect_anomalies, prog_bind, deref, lift_result. rewrite Hl.
  unfold setitem, anomaly_column. simpl col_length.
  rewrite length_app, !length_map, repeat_length.
  replace (nrows d - length X_test)%nat with 0%nat by lia.
  destruct (Nat.eqb (length X_test + 0) (nrows d)) eqn:E; [|reflexivity].
  apply Nat.eqb_eq in E. lia.
Qed.

Lemma detect_anomalies_too_many_rows_witness :
  let d := mkFrame 1 [("bytes", IntCol [3]%Z)] in
  detect_anomalies (fun _ : Z => 1%Z) [3; 50]%Z 0 {[ 0%nat := d ]}
  = (Raise (ValueError "Length of values does not match length of index"),
     {[ 0%nat := d ]}, []).
Proof.
  intros d.
  apply (detect_anomalies_too_many_rows (fun _ : Z => 1%Z) [3; 50]%Z 0 {[ 0%nat := d ]} d).
  - reflexivity.
  - simpl. lia.
Defined.

Lemma count_true_app m1 m2 : count_true (m1 ++ m2) = (count_true m1 + count_true m2)%nat.
Proof. unfold count_true. now rewrite List.filter_app, length_app. Qed.

Lemma verdict_anomaly p : String.eqb (verdict p) "Anomaly" = Z.eqb p (-1).
Proof. unfold verdict. now destruct (Z.eqb p (-1)). Qed.

Lemma count_flagged {R : Type} (det : R -> Z) (X_test : list R) n :
  count_true (eq_mask "Anomaly"
                (ObjCol (anomaly_column (map verdict (map det X_test)) n)))
  = length (List.filter (fun x => Z.eqb (det x) (-1)) X_test).
Proof.
  unfold eq_mask, anomaly_column. rewrite map_app, count_true_app.
  replace (count_true (map _ (repeat None _))) with 0%nat.
  - rewrite Nat.add_0_r. unfold count_true.
    induction X_test as [|x X IH]; simpl; [reflexivity|].
    rewrite verdict_anomaly. destruct (Z.eqb (det x) (-1)); simpl; now rewrite IH.
  - unfold count_true. induction (n - _)%nat as [|k IH]; [reflexivity|exact IH].
Qed.

Lemma filter_empty_existsb {T} (f : T -> bool) (l : list T) :
  Nat.eqb (length (List.filter f l)) 0 = negb (existsb f l).
Proof.
  induction l as [|x l IH]; simpl; [reflexivity|].
  destruct (f x); simpl; [reflexivity|exact IH].
Qed.

Lemma set_assoc_nonempty name c cs : Nat.eqb (length (set_assoc name c cs)) 0 = false.
Proof.
  destruct cs as [|[n c'] cs]; simpl; [reflexivity|].
  destruct (String.eqb name n); reflexivity.
Qed.

Lemma flagged_view_nrows {R : Type} (det : R -> Z) (X_test : list R) d :
  nrows (flagged_view det X_test d)
  = length (List.filter (fun x => Z.eqb (det x) (-1)) X_test).
Proof. unfold flagged_view, select_rows. cbn [nrows]. apply count_flagged. Qed.

Lemma flagged_view_columns {R : Type} (det : R -> Z) (X_test : list R) d :
  Nat.eqb (length (columns (flagged_view det X_test d))) 0 = false.
Proof.
  unfold flagged_view, select_rows, flagged_table, set_column. cbn [columns].
  rewrite length_map. apply set_assoc_nonempty.
Qed.

Lemma flagged_view_empty {R : Type} (det : R -> Z) (X_test : list R) d :
  frame_empty (flagged_view det X_test d)
  = negb (existsb (fun x => Z.eqb (det x) (-1)) X_test).
Proof.
  unfold frame_empty.
  rewrite flagged_view_columns, orb_false_r, flagged_view_nrows.
  apply filter_empty_existsb.
Qed.

(** X22: the alert follows the verdicts.  The view shown has as many rows
    as there are test rows the detector answered -1 for; the red alert is
    shown when there is such a row and the green message when there is none.
    In the table only the column "Anomaly Prediction" is written. *)
Theorem detect_anomalies_alert {R : Type} (det : R -> Z) (X_test : list R)
    (l : nat) (h : gmap nat frame) (d : frame) :
  h !! l = Some d ->
  (length X_test <= nrows d)%nat ->
  exists d' view,
    detect_anomalies det X_test l h
    = (Ok tt, <[l := d']> h,
       [StSubheader "Suspicious Activities Detected"; StDataframe view;
        if existsb (fun x => Z.eqb (det x) (-1)) X_test
        then StError alert_msg else StSuccess clear_msg]) /\
    nrows view = length (List.filter (fun x => Z.eqb (det x) (-1)) X_test) /\
    nrows d' = nrows d /\
    forall name, name <> "Anomaly Prediction" -> getcol name d' = getcol name d.
Proof.
  intros Hl Hlen.
  exists (flagged_table det X_test d), (flagged_view det X_test d).
  split; [|split; [|split]].
  - rewrite (detect_anomalies_run det X_test l h d Hl Hlen).
    unfold flagged_log. rewrite flagged_view_empty, negb_involutive. reflexivity.
  - apply flagged_view_nrows.
  - reflexivity.
  - intros name Hne. apply getcol_set_column_other. congruence.
Qed.

Lemma detect_anomalies_alert_witness :
  let det := fun x : Z => if Z.ltb x 10 then 1%Z else (-1)%Z in
  let d := mkFrame 4 [("bytes", IntCol [3; 50; 7; 9]%Z)] in
  let h : gmap nat frame := {[ 0%nat := d ]} in
  exists d' view,
    detect_anomalies det [3; 50]%Z 0 h
    = (Ok tt, <[0%nat := d']> h,
       [StSubheader "Suspicious Activities Detected"; StDataframe view;
        StError alert_msg]) /\
    nrows view = 1%nat /\
    nrows d' = 4%nat /\
    forall name, name <> "Anomaly Prediction" -> getcol name d' = getcol name d.
Proof.
  intros det d h.
  apply (detect_anomalies_alert det [3; 50]%Z 0 h d).
  - reflexivity.
  - simpl. lia.
Defined.

(** ** A run without the button *)



(** ** When the advisory call returns *)

Lemma predict_with_groq_request post input_data :
  predict_with_groq post input_data
  = (response <- post (advisory_request input_data) ;;
     reply <- response_json response ;;
     choices <- py_get "choices" (JArray [JObject []]) reply ;;
     first <- py_first choices ;;
     py_get "text" fallback first)%result.
Proof. reflexivity. Qed.

Lemma completion_text_empty : completion_text [] = fallback.
Proof. reflexivity. Qed.

(** X24: the one request goes to the fixed endpoint and the call returns a
    value in exactly two situations: the reply is a JSON object without the
    key "choices" (the placeholder is returned), or its "choices" is a list
    whose first element is an object (that object's "text" is returned, or
    the placeholder when it has none).  The status code plays no part: an
    error reply that is a JSON object without "choices" reads as
    "No response". *)
Theorem predict_with_groq_returns (post : request -> result response)
    (input_data : string) (v : json) :
  predict_with_groq post input_data = Ok v <->
  exists reply members,
    post (advisory_request input_data) = Ok reply /\
    body reply = Some (JObject members) /\
    ((dict_lookup "choices" members = None /\ v = fallback) \/
     exists fields rest,
       dict_lookup "choices" members = Some (JArray (JObject fields :: rest)) /\
       v = completion_text fields).
Proof.
  rewrite predict_with_groq_request. split.
  - destruct (post (advisory_request input_data)) as [reply|e]; [|discriminate].
    simpl. unfold response_json.
    destruct (body reply) as [j|] eqn:Eb; [|discriminate].
    simpl. destruct j as [| | | | |members]; try discriminate. simpl.
    destruct (dict_lookup "choices" members) as [choices|] eqn:Ec.
    + destruct choices as [| | |s|items|ms]; try discriminate.
      * destruct s; discriminate.
      * destruct items as [|first rest]; [discriminate|]. simpl.
        destruct first as [| | | | |fields]; try discriminate. simpl.
        intros [= <-]. exists reply, members.
        split; [reflexivity|]. split; [exact Eb|].
        right. exists fields, rest. split; [exact Ec|reflexivity].
    + simpl. intros [= <-]. exists reply, members.
      split; [reflexivity|]. split; [exact Eb|].
      left. split; [exact Ec|reflexivity].
  - intros (reply & members & Hp & Hb & [[Hc ->]|(fields & rest & Hc & ->)]);
      rewrite Hp; simpl; unfold response_json; rewrite Hb; simpl; rewrite Hc;
      reflexivity.
Qed.
